(** * epub_read_more_easily: syllable emphasis for HTML documents

    A shallow embedding of [src/epub_read_more_easily/__init__.py] and the
    properties of its tokenizer, syllable styler, eligibility filter,
    hyphenator cache and command-line front end.

    Python [str] values are sequences of Unicode code points and are
    modelled as [list N].  Library calls whose behaviour is decided outside
    the repository (the Unicode database for non-ASCII code points, PyHyphen,
    the HTML parser, the file system) are Section variables. *)

From Stdlib Require Import NArith Ascii String Bool Lia.
From stdpp Require Import base option list gmap.

(** ** Python strings *)

Abbreviation pystr := (list N).

(** A string literal of the source as code points (ASCII literals only). *)
Definition u (s : string) : pystr :=
  List.map N_of_ascii (list_ascii_of_string s).

(** [str.isspace] for one code point (CPython's [_PyUnicode_IsWhitespace]). *)
Definition isspace_char (c : N) : bool :=
  ((9 <=? c) && (c <=? 13) || (28 <=? c) && (c <=? 32)
   || (c =? 133) || (c =? 160) || (c =? 5760)
   || (8192 <=? c) && (c <=? 8202)
   || (c =? 8232) || (c =? 8233) || (c =? 8239) || (c =? 8287)
   || (c =? 12288))%N.

(** [s.lstrip()], [s.rstrip()], [s.strip()] *)
Fixpoint lstrip (s : pystr) : pystr :=
  match s with
  | c :: s' => if isspace_char c then lstrip s' else s
  | [] => []
  end.

Definition rstrip (s : pystr) : pystr := rev (lstrip (rev s)).

Definition strip (s : pystr) : pystr := rstrip (lstrip s).

(** Truth value of a [str] or a [list]: non-empty. *)
Definition truthy {A} (l : list A) : bool :=
  match l with [] => false | _ => true end.

(** [Py_UNICODE_ISALNUM] restricted to ASCII. *)
Definition ascii_isalnum (c : N) : bool :=
  ((48 <=? c) && (c <=? 57) || (65 <=? c) && (c <=? 90)
   || (97 <=? c) && (c <=? 122))%N.

Definition underscore : N := 95%N.

Section Text.

(** [Py_UNICODE_ISALNUM] for the code points from 128 on: the Unicode
    database of the interpreter. *)
Variable unicode_isalnum : N -> bool.

Definition isalnum_char (c : N) : bool :=
  if (c <? 128)%N then ascii_isalnum c else unicode_isalnum c.

(** [part.isalnum()]: non-empty and every code point alphanumeric. *)
Definition isalnum (s : pystr) : bool :=
  truthy s && forallb isalnum_char s.

(** ** The pattern [(\b\w+\b)]

    [\w] on a [str] pattern is [Py_UNICODE_ISALNUM(c) || c == '_']. *)
Definition is_word (c : N) : bool :=
  isalnum_char c || (c =? underscore)%N.

Definition is_word_opt (c : option N) : bool :=
  from_option is_word false c.

(** [\b] between the code point before the position and the one after it
    ([None] at either end of the string). *)
Definition word_boundary (before after : option N) : bool :=
  xorb (is_word_opt before) (is_word_opt after).

(** [\w+\b] after a first [\w] (the code point [prev]) has been consumed:
    greedy repetition, giving characters back until [\b] holds.  Returns
    the rest of the matched text. *)
Fixpoint match_word_run (prev : N) (rest : pystr) : option pystr :=
  let stop :=
    if word_boundary (Some prev) (head rest) then Some [] else None in
  match rest with
  | c :: rest' =>
      if is_word c then
        match match_word_run c rest' with
        | Some m => Some (c :: m)
        | None => stop
        end
      else stop
  | [] => stop
  end.

(** One attempt to match [\b\w+\b] at a position; the matched text. *)
Definition match_at (before : option N) (s : pystr) : option pystr :=
  match s with
  | c :: rest =>
      if word_boundary before (Some c) && is_word c
      then cons c <$> match_word_run c rest
      else None
  | [] => None
  end.

(** [re.split(r"(\b\w+\b)", s)]: the search tries each position from the
    end of the previous match on; at a match the text since the previous
    match and the captured group are emitted.  [skip] counts the code
    points of the last match still to be passed, [seg] is the text since
    the end of the last match. *)
Fixpoint split_scan (before : option N) (s : pystr) (skip : nat)
    (seg : pystr) : list pystr :=
  match s with
  | [] => [seg]
  | c :: s' =>
      match skip with
      | S k => split_scan (Some c) s' k seg
      | O =>
          match match_at before s with
          | Some m => seg :: m :: split_scan (Some c) s' (pred (length m)) []
          | None => split_scan (Some c) s' 0 (seg ++ [c])
          end
      end
  end.

Definition re_split (s : pystr) : list pystr := split_scan None s 0 [].

(** Lines 138-140 of [process_text_node]:
    [parts = re.split(...); parts = [part for part in parts if part]]. *)
Definition text_parts (s : pystr) : list pystr :=
  List.filter truthy (re_split s).

End Text.

(** ** Document tree

    Beautiful Soup's [NavigableString] and its subclasses; [Comment],
    [CData], [ProcessingInstruction], [Declaration] and [Doctype] are
    sibling subclasses of [PreformattedString], and [Script], [Stylesheet]
    and [TemplateString] are the classes of the strings under [script],
    [style] and [template] elements. *)
Inductive strclass :=
| NavigableString
| Comment
| CData
| ProcessingInstruction
| Declaration
| Doctype
| Script
| Stylesheet
| TemplateString.

#[warnings="-register-all"]
Inductive node :=
| Str (cls : strclass) (s : pystr)
| Tag (name : pystr) (attrs : list (pystr * pystr)) (contents : list node).

(** The [BeautifulSoup] object: the root, whose [name] is ["[document]"]. *)
Record soup := BeautifulSoup { contents : list node }.

Definition DOCUMENT_NAME : pystr := u "[document]".

(** [isinstance(text_node, (Comment,))] *)
Definition isinstance_Comment (cls : strclass) : bool :=
  match cls with Comment => true | _ => false end.

(** ** Constants of the module *)

Definition TARGET_LANG : pystr := u "de_DE".
Definition TAGS_TO_SKIP_DIRECT_TEXT : list pystr :=
  [u "script"; u "style"; u "pre"; u "code"; u "textarea"].
Definition TAGS_TO_SKIP_COMPLETELY : list pystr := [u "script"; u "style"].
Definition DEFAULT_SUFFIX : pystr := u "_syll_emph".

(** [x in xs] for a list or a tuple of strings. *)
Definition py_in (x : pystr) (xs : list pystr) : bool := bool_decide (x ∈ xs).

(** ** Paths ([pathlib.PurePosixPath]): an optional root and the components. *)
Record Path := mkPath { absolute : bool; components : list pystr }.

#[global] Instance Path_eq_dec : EqDecision Path.
Proof. solve_decision. Defined.

Definition path_name (p : Path) : pystr := List.last (components p) [].

(** [name.rfind(".")] *)
Fixpoint rfind_dot (name : pystr) : option nat :=
  match name with
  | [] => None
  | c :: name' =>
      match rfind_dot name' with
      | Some i => Some (S i)
      | None => if (c =? 46)%N then Some 0%nat else None
      end
  end.

(** [Path.suffix] and [Path.stem]: the name is cut at its last dot unless
    that dot is the first or the last character. *)
Definition path_suffix (p : Path) : pystr :=
  let name := path_name p in
  match rfind_dot name with
  | Some i => if (0 <? i)%nat && (i <? length name - 1)%nat
              then drop i name else []
  | None => []
  end.

Definition path_stem (p : Path) : pystr :=
  let name := path_name p in
  match rfind_dot name with
  | Some i => if (0 <? i)%nat && (i <? length name - 1)%nat
              then take i name else name
  | None => name
  end.

Definition path_parent (p : Path) : Path :=
  mkPath (absolute p) (removelast (components p)).

(** [p / segment] for a segment that is one file name. *)
Definition path_join (p : Path) (segment : pystr) : Path :=
  mkPath (absolute p) (components p ++ [segment]).

(** ** Exceptions, results and effects *)

Inductive error_message :=
| HyphenatorNotInitialized (lang : pystr)
| ParsingFailed
| InputNotFound (p : Path)
| InputUnreadable (p : Path)
| InputDoesNotExist (p : Path)
| EitherOutputOrInplace
| UnsupportedInput (input_kind : pystr) (supported : list pystr).

(** The subclasses of [Exception] the program raises or meets;
    [LibraryError] stands for any other [Exception] of a library call. *)
Inductive exn :=
| ValueError (m : error_message)
| RuntimeError (m : error_message)
| AssertionError (m : error_message)
| FileNotFoundError
| LibraryError (code : N).

Inductive result (A : Type) :=
| Ok (a : A)
| Raise (e : exn).
Arguments Ok {A} a.
Arguments Raise {A} e.

Inductive warning :=
| HyphenationFailed (word : pystr) (e : exn)
| NodeNoLongerInTree (prefix : pystr).

(** Every call that leaves the program, in the order it is made. *)
Inductive event :=
| EvSyllables (word : pystr)
| EvPrint (w : warning)
| EvIsInstalled (lang : pystr)
| EvInstall (lang : pystr)
| EvNewHyphenator (lang : pystr)
| EvParse (html : pystr)
| EvExists (p : Path)
| EvReadText (p : Path)
| EvMkdir (p : Path)
| EvWriteText (p : Path) (data : pystr).

(** Code that only calls the hyphenator and prints: a value and the events. *)
Definition W (A : Type) : Type := (A * list event)%type.

Definition wret {A} (a : A) : W A := (a, []).

Definition wbind {A B} (m : W A) (f : A → W B) : W B :=
  let '(a, e1) := m in let '(b, e2) := f a in (b, e1 ++ e2).

Definition tell (e : event) : W unit := (tt, [e]).

#[global] Instance W_ret : MRet W := @wret.
#[global] Instance W_bind : MBind W := fun A B f m => wbind m f.

(** ** Syllable styler and text-node rewriting *)

Section Styler.

Variable unicode_isalnum : N -> bool.

(** [hyphenator.syllables(word)]: the list of syllables, or an exception. *)
Variable hyphenator : pystr -> result (list pystr).

(** [soup.new_tag("b")] with [.string = syllable]. *)
Definition bold_tag (syllable : pystr) : node :=
  Tag (u "b") [] [Str NavigableString syllable].

(** The loop [for i, syllable in enumerate(syllables)], from index [i]. *)
Fixpoint new_elements (i : nat) (syllables : list pystr) : list node :=
  match syllables with
  | [] => []
  | syllable :: rest =>
      (if (i mod 2 =? 1)%nat
       then bold_tag syllable
       else Str NavigableString syllable) :: new_elements (S i) rest
  end.

Definition create_styled_syllables (word : pystr) : W (list node) :=
  tell (EvSyllables word);;
  match hyphenator word with
  | Raise e =>
      tell (EvPrint (HyphenationFailed word e));;
      mret [Str NavigableString word]
  | Ok syllables =>
      if negb (truthy syllables) || (length syllables <=? 1)%nat
      then mret [Str NavigableString word]
      else mret (new_elements 0 syllables)
  end.

(** The body of [for part in parts]: what one part adds to
    [new_content]. *)
Definition part_content (part : pystr) : W (list node) :=
  if isalnum unicode_isalnum part && (1 <? length part)%nat
  then create_styled_syllables part
  else mret [Str NavigableString part].

Fixpoint new_content (parts : list pystr) : W (list node) :=
  match parts with
  | [] => mret []
  | part :: parts' =>
      styled ← part_content part;
      others ← new_content parts';
      mret (styled ++ others)
  end.

(** What [process_text_node] does to the node it is given. *)
Inductive outcome :=
| Untouched
| Replaced (new_content : list node).

(** [process_text_node]; [attached] is [text_node.parent is not None]. *)
Definition process_text_node (text : pystr) (attached : bool) : W outcome :=
  let parts := text_parts unicode_isalnum text in
  if negb (truthy parts) then mret Untouched
  else
    content ← new_content parts;
    if truthy content then
      if attached then mret (Replaced content)
      else
        tell (EvPrint (NodeNoLongerInTree (take 20 text)));;
        mret Untouched
    else mret Untouched.

(** The [while] loop of [process_html_content] over the parents of a text
    node, nearest first; the result is [skip_node].  A tag equals
    [text_node.parent] only on the first turn: Beautiful Soup compares
    tags by name, attributes and contents, and an element further up
    contains the parent, so it cannot have the same contents. *)
Fixpoint skip_node (is_parent : bool) (parents : list pystr) : bool :=
  match parents with
  | [] => false
  | name :: up =>
      if bool_decide (name = DOCUMENT_NAME) then false
      else if py_in name TAGS_TO_SKIP_COMPLETELY then true
      else if py_in name TAGS_TO_SKIP_DIRECT_TEXT && is_parent then true
      else skip_node false up
  end.

(** The body of [for text_node in all_text_nodes]. *)
Definition visit_text_node (parents : list pystr) (cls : strclass)
    (text : pystr) : W outcome :=
  if isinstance_Comment cls || negb (truthy (strip text)) then mret Untouched
  else if skip_node true parents then mret Untouched
  else process_text_node text true.

(** [process_html_content]: [find_all(string=True)] lists the strings of
    the tree in document order before anything is replaced, and each is
    visited once.  A replacement puts the new nodes in the place of one
    string under the same parent, so the parents of the strings not yet
    visited are those of the original tree, and every string is still
    attached when its turn comes. *)
Fixpoint rewrite_node (parents : list pystr) (n : node) : W (list node) :=
  match n with
  | Str cls text =>
      o ← visit_text_node parents cls text;
      mret (match o with Untouched => [n] | Replaced new => new end)
  | Tag name attrs children =>
      let fix rewrite_all (l : list node) : W (list node) :=
        match l with
        | [] => mret []
        | c :: l' =>
            first ← rewrite_node (name :: parents) c;
            others ← rewrite_all l';
            mret (first ++ others)
        end in
      children' ← rewrite_all children;
      mret [Tag name attrs children']
  end.

Fixpoint rewrite_nodes (parents : list pystr) (l : list node)
    : W (list node) :=
  match l with
  | [] => mret []
  | c :: l' =>
      first ← rewrite_node parents c;
      others ← rewrite_nodes parents l';
      mret (first ++ others)
  end.

Definition process_html_content (doc : soup) : W soup :=
  children ← rewrite_nodes [DOCUMENT_NAME] (contents doc);
  mret (BeautifulSoup children).

End Styler.

(** ** The program in its environment *)

(** [Args] of the command line. *)
Record Args := mkArgs {
  input_path : Path;
  inplace : bool;
  output_path : option Path
}.

Section Program.

Variable unicode_isalnum : N -> bool.

(** PyHyphen: the handle type, the dictionary tools, the constructor
    [Hyphenator(lang)] and the method [syllables].  [E] is the state of
    the machine outside the program (files, installed dictionaries). *)
Variable Hyphenator : Type.
Variable E : Type.
Variable dictools_is_installed : pystr -> E -> result bool.
Variable dictools_install : pystr -> E -> result unit * E.
Variable Hyphenator_init : pystr -> E -> result Hyphenator * E.
Variable Hyphenator_syllables : Hyphenator -> pystr -> result (list pystr).

(** Beautiful Soup: [BeautifulSoup(html_content, PARSER)] and [str(soup)]. *)
Variable BeautifulSoup_init : pystr -> result soup.
Variable soup_str : soup -> pystr.

(** pathlib: [exists], [read_text], [mkdir(parents=True, exist_ok=True)]
    and [write_text]. *)
Variable Path_exists : Path -> E -> bool.
Variable Path_read_text : Path -> E -> result pystr.
Variable Path_mkdir : Path -> E -> result unit * E.
Variable Path_write_text : Path -> pystr -> E -> result unit * E.

(** The module global [_HYPHENATOR_CACHE], the machine, and the calls made
    so far. *)
Record world := World {
  _HYPHENATOR_CACHE : gmap pystr Hyphenator;
  outside : E;
  trace : list event
}.

(** Statements: a result or an exception, and the world afterwards. *)
Definition M (A : Type) : Type := world -> result A * world.

Definition ret {A} (a : A) : M A := fun w => (Ok a, w).

Definition bind {A B} (m : M A) (f : A -> M B) : M B :=
  fun w =>
    match m w with
    | (Ok a, w') => f a w'
    | (Raise e, w') => (Raise e, w')
    end.

Definition raise {A} (e : exn) : M A := fun w => (Raise e, w).

(** [try: m except Exception as e: handler e] *)
Definition try_except {A} (m : M A) (handler : exn -> M A) : M A :=
  fun w =>
    match m w with
    | (Ok a, w') => (Ok a, w')
    | (Raise e, w') => handler e w'
    end.

#[local] Instance M_ret : MRet M := @ret.
#[local] Instance M_bind : MBind M := fun A B f m => bind m f.

Definition record (ev : event) (w : world) : world :=
  World (_HYPHENATOR_CACHE w) (outside w) (trace w ++ [ev]).

(** A library call that reads the machine. *)
Definition query {A} (ev : event) (f : E -> result A) : M A :=
  fun w => (f (outside w), record ev w).

(** A library call that may change the machine. *)
Definition command {A} (ev : event) (f : E -> result A * E) : M A :=
  fun w =>
    let '(r, e') := f (outside w) in
    (r, World (_HYPHENATOR_CACHE w) e' (trace w ++ [ev])).

(** Code of the text layer run in the world. *)
Definition run_writer {A} (m : W A) : M A :=
  fun w =>
    (Ok (fst m), World (_HYPHENATOR_CACHE w) (outside w) (trace w ++ snd m)).

Definition get_hyphenator (lang : pystr) : M (option Hyphenator) :=
  fun w =>
    if negb (bool_decide (lang ∈ dom (_HYPHENATOR_CACHE w)))
    then
      try_except
        (installed ← query (EvIsInstalled lang) (dictools_is_installed lang);
         proceed ←
           (if negb installed
            then try_except
                   (command (EvInstall lang) (dictools_install lang);;
                    mret true)
                   (fun e => mret false)
            else mret true);
         if (proceed : bool)
         then h ← command (EvNewHyphenator lang) (Hyphenator_init lang);
              mret (Some h)
         else mret None)
        (fun e => mret None) w
    else (Ok (_HYPHENATOR_CACHE w !! lang), w).

Definition process_html_file_content (html_content : pystr) : M pystr :=
  hyphenator ← get_hyphenator TARGET_LANG;
  match hyphenator with
  | None => raise (RuntimeError (HyphenatorNotInitialized TARGET_LANG))
  | Some hyphenator =>
      doc ← try_except
               (query (EvParse html_content)
                      (fun _ => BeautifulSoup_init html_content))
               (fun e => raise (ValueError ParsingFailed));
      doc' ← run_writer
                (process_html_content unicode_isalnum
                   (Hyphenator_syllables hyphenator) doc);
      mret (soup_str doc')
  end.

Definition process_html_file (input_path output_path : Path) : M unit :=
  html_content ←
    try_except
      (query (EvReadText input_path) (Path_read_text input_path))
      (fun e =>
         match e with
         | FileNotFoundError => raise (ValueError (InputNotFound input_path))
         | _ => raise (ValueError (InputUnreadable input_path))
         end);
  processed ← process_html_file_content html_content;
  command (EvMkdir (path_parent output_path))
          (Path_mkdir (path_parent output_path));;
  command (EvWriteText output_path processed)
          (Path_write_text output_path processed).

Definition html_input : list pystr := [u ".html"; u ".xhtml"].

(** [emphasize_file_content]; the [assert] is the one of an interpreter
    run without [-O]. *)
Definition emphasize_file_content (args : Args) : M unit :=
  found ← query (EvExists (input_path args))
                (fun e => Ok (Path_exists (input_path args) e));
  if negb found
  then raise (ValueError (InputDoesNotExist (input_path args)))
  else
    output_path ←
      (if inplace args then
         (if bool_decide (output_path args = None) then mret tt
          else raise (AssertionError EitherOutputOrInplace));;
         mret (input_path args)
       else
         match output_path args with
         | None =>
             mret (path_join (path_parent (input_path args))
                     (path_stem (input_path args) ++ DEFAULT_SUFFIX
                        ++ u ".html"))
         | Some p => mret p
         end);
    let input_kind := path_suffix (input_path args) in
    if py_in input_kind html_input
    then process_html_file (input_path args) output_path
    else raise (ValueError (UnsupportedInput input_kind html_input)).

End Program.

(** [soup.find_all(string=True)]: every string of the tree in document
    order, here with the names of its parents, nearest first. *)
Fixpoint find_all_strings (parents : list pystr) (n : node)
    : list (list pystr * strclass * pystr) :=
  match n with
  | Str cls text => [(parents, cls, text)]
  | Tag name _ children =>
      concat (List.map (find_all_strings (name :: parents)) children)
  end.

(** ** Styled fragments

    The styler returns Beautiful Soup nodes; a fragment is emphasized when
    it is a [b] element, and its text is the text it shows. *)
Definition emphasized (n : node) : bool :=
  match n with
  | Tag name _ _ => bool_decide (name = u "b")
  | Str _ _ => false
  end.

Fixpoint fragment_text (n : node) : pystr :=
  match n with
  | Str _ s => s
  | Tag _ _ children => concat (List.map fragment_text children)
  end.

(** The calls [get_hyphenator] makes. *)
Definition dictionary_event (ev : event) : bool :=
  match ev with
  | EvIsInstalled _ | EvInstall _ | EvNewHyphenator _ => true
  | _ => false
  end.

(** ** Predicates for the properties of the text layer *)

Definition non_word (unicode_isalnum : N -> bool) (c : N) : bool :=
  negb (is_word unicode_isalnum c).

(** A part is of one kind: only word characters, or none. *)
Definition one_kind (unicode_isalnum : N -> bool) (part : pystr) : Prop :=
  forallb (is_word unicode_isalnum) part = true
  \/ forallb (non_word unicode_isalnum) part = true.

(** What the scan of [re.split] knows at a position: inside a match the
    characters still to be passed are word characters followed by none;
    outside, a word character before the position is the end of a match,
    so no word character follows. *)
Definition scan_state (unicode_isalnum : N -> bool) (before : option N)
    (s : pystr) (skip : nat) : Prop :=
  match skip with
  | O => is_word_opt unicode_isalnum before = true ->
         is_word_opt unicode_isalnum (head s) = false
  | S _ => (skip <= length s)%nat
           /\ forallb (is_word unicode_isalnum) (take skip s) = true
           /\ is_word_opt unicode_isalnum (head (drop skip s)) = false
  end.

(** A node the styler makes: a plain string or a [b] element around one. *)
Definition plain_or_bold (n : node) : Prop :=
  exists s, n = Str NavigableString s \/ n = bold_tag s.

(** An event of the text layer for a word that may be hyphenated. *)
Definition word_event (unicode_isalnum : N -> bool) (ev : event) : Prop :=
  exists word,
    isalnum unicode_isalnum word = true /\ (1 < length word)%nat
    /\ (ev = EvSyllables word
        \/ exists e, ev = EvPrint (HyphenationFailed word e)).

(** The names of the elements of a tree. *)
Fixpoint tag_names (n : node) : list pystr :=
  match n with
  | Str _ _ => []
  | Tag name _ children => name :: concat (List.map tag_names children)
  end.

(** The text of a list of fragments, as [fragment_text] reads each. *)
Definition nodes_text (l : list node) : pystr :=
  concat (List.map fragment_text l).

(** A hyphenator that only cuts: the syllables it returns make up the
    word. *)
Definition cuts_only (hyphenator : pystr -> result (list pystr)) : Prop :=
  forall word syls, hyphenator word = Ok syls -> (2 <= length syls)%nat ->
                    concat syls = word.

(** Events that change files. *)
Definition write_event (ev : event) : bool :=
  match ev with
  | EvMkdir _ | EvWriteText _ _ => true
  | _ => false
  end.

(** The events of [process_html_file_content]. *)
Definition content_event (ev : event) : bool :=
  match ev with
  | EvIsInstalled _ | EvInstall _ | EvNewHyphenator _
  | EvParse _ | EvSyllables _ | EvPrint _ => true
  | _ => false
  end.

(** ** What a reader sees, and what the hyphenator is asked *)

(** The classes of strings whose payload is text of the document (those
    that [get_text] of Beautiful Soup returns); the payload of a comment,
    a doctype, a declaration or a processing instruction is markup. *)
Definition visible_class (cls : strclass) : bool :=
  match cls with
  | NavigableString | CData => true
  | _ => false
  end.

(** The text a tree shows, in document order. *)
Fixpoint visible_text (n : node) : pystr :=
  match n with
  | Str cls s => if visible_class cls then s else []
  | Tag _ _ children => concat (List.map visible_text children)
  end.

Definition document_text (l : list node) : pystr :=
  concat (List.map visible_text l).

(** A tree whose strings are text or comments. *)
Fixpoint text_and_comments_only (n : node) : bool :=
  match n with
  | Str cls _ => isinstance_Comment cls || visible_class cls
  | Tag _ _ children => forallb text_and_comments_only children
  end.

(** The words the hyphenator was called with, in the order of the calls. *)
Definition hyphenator_calls (evs : list event) : list pystr :=
  omap (fun ev => match ev with EvSyllables word => Some word | _ => None end)
       evs.

(** The test of line 151 on a part. *)
Definition hyphenated (unicode_isalnum : N -> bool) (part : pystr) : bool :=
  isalnum unicode_isalnum part && (1 <? length part)%nat.

(** The tests of lines 186 to 203 on a string of the tree: neither a
    comment nor blank, and not skipped for its parents. *)
Definition eligible (parents : list pystr) (cls : strclass) (text : pystr)
    : bool :=
  negb (isinstance_Comment cls || negb (truthy (strip text)))
  && negb (skip_node true parents).

(** The strings of a document as [find_all(string=True)] lists them. *)
Definition all_text_nodes (doc : soup)
    : list (list pystr * strclass * pystr) :=
  concat (List.map (find_all_strings [DOCUMENT_NAME]) (contents doc)).

(** ** An environment to run the program in

    A small machine on which the definitions above evaluate: ASCII text
    only, a hyphenator that knows one word, a parser that reads the whole
    input as one string under a [p] element. *)
Module Demo.

Definition unicode_isalnum : N -> bool := fun _ => false.

Record machine := Machine {
  files : list (Path * pystr);
  dictionaries : list pystr;
  network : bool;
  handles : nat
}.

Definition is_installed (lang : pystr) (m : machine) : result bool :=
  Ok (py_in lang (dictionaries m)).

Definition install (lang : pystr) (m : machine) : result unit * machine :=
  if network m
  then (Ok tt, Machine (files m) (lang :: dictionaries m) true (handles m))
  else (Raise (LibraryError 1), m).

(** Handles are numbered in the order they are constructed. *)
Definition init (lang : pystr) (m : machine) : result nat * machine :=
  if py_in lang (dictionaries m)
  then (Ok (handles m),
        Machine (files m) (dictionaries m) (network m) (S (handles m)))
  else (Raise (LibraryError 2), m).

Definition syllables_of (word : pystr) : result (list pystr) :=
  if bool_decide (word = u "Silbentrennung")
  then Ok [u "Sil"; u "ben"; u "tren"; u "nung"]
  else if bool_decide (word = u "Fehler") then Raise (LibraryError 3)
  else Ok [word].

Definition syllables (h : nat) (word : pystr) : result (list pystr) :=
  syllables_of word.

Definition parse (html : pystr) : result soup :=
  Ok (BeautifulSoup [Tag (u "p") [] [Str NavigableString html]]).

Fixpoint node_str (n : node) : pystr :=
  match n with
  | Str _ s => s
  | Tag name _ children =>
      u "<" ++ name ++ u ">" ++ concat (List.map node_str children)
        ++ u "</" ++ name ++ u ">"
  end.

Definition to_str (doc : soup) : pystr :=
  concat (List.map node_str (contents doc)).

Definition file_exists (p : Path) (m : machine) : bool :=
  bool_decide (p ∈ (files m).*1).

Definition read_text (p : Path) (m : machine) : result pystr :=
  match list_find (fun f => f.1 = p) (files m) with
  | Some (_, (_, data)) => Ok data
  | None => Raise FileNotFoundError
  end.

Definition mkdir (p : Path) (m : machine) : result unit * machine :=
  (Ok tt, m).

Definition write_text (p : Path) (data : pystr) (m : machine)
    : result unit * machine :=
  (Ok tt,
   Machine ((p, data) :: files m) (dictionaries m) (network m) (handles m)).

Definition get_hyphenator :=
  get_hyphenator nat machine is_installed install init.

Definition process_html_file_content :=
  process_html_file_content unicode_isalnum nat machine
    is_installed install init syllables parse to_str.

Definition emphasize_file_content :=
  emphasize_file_content unicode_isalnum nat machine
    is_installed install init syllables parse to_str
    file_exists read_text mkdir write_text.

Definition notes_txt : Path := mkPath false [u "books"; u "notes.txt"].
Definition chapter : Path := mkPath false [u "books"; u "ch1.xhtml"].

(** A machine with the German dictionary installed and two files; the
    program has just been loaded (empty cache, nothing called). *)
Definition start : world nat machine :=
  World nat machine ∅
    (Machine [(notes_txt, u "Hi."); (chapter, u "Die Silbentrennung.")]
             [u "de_DE"] false 0)
    [].

(** The same machine without dictionary and without network. *)
Definition offline : world nat machine :=
  World nat machine ∅
    (Machine [(chapter, u "Die Silbentrennung.")] [] false 0) [].

End Demo.

(** More machines: one without dictionary but with a network, and a
    parser that fails. *)
Module Scenes.

Definition online : world nat Demo.machine :=
  World nat Demo.machine ∅
    (Demo.Machine [(Demo.chapter, u "Die Silbentrennung.")] [] true 0) [].

Definition broken_parser (html : pystr) : result soup :=
  Raise (LibraryError 4).

Definition missing : Path := mkPath false [u "books"; u "ch2.html"].

End Scenes.

(** * Properties *)

(** ** Tokenizer *)

Section TextFacts.

Variable unicode_isalnum : N -> bool.

Lemma match_word_run_prefix prev rest m :
  match_word_run unicode_isalnum prev rest = Some m ->
  m = take (length m) rest.
Proof.
  revert prev m. induction rest as [|c rest IH]; intros prev m; simpl.
  - destruct (word_boundary _ _ _); intros [= <-]; reflexivity.
  - destruct (is_word unicode_isalnum c).
    + destruct (match_word_run unicode_isalnum c rest) as [m'|] eqn:Hrun.
      * intros [= <-]. simpl. f_equal. eauto.
      * destruct (word_boundary _ _ _); intros [= <-]; reflexivity.
    + destruct (word_boundary _ _ _); intros [= <-]; reflexivity.
Qed.

Lemma match_at_prefix before s m :
  match_at unicode_isalnum before s = Some m ->
  (0 < length m)%nat /\ m = take (length m) s.
Proof.
  destruct s as [|c rest]; simpl; [discriminate|].
  destruct (_ && _); [|discriminate].
  destruct (match_word_run unicode_isalnum c rest) as [m'|] eqn:Hrun;
    simpl; [|discriminate].
  intros [= <-]. simpl. split; [lia|].
  f_equal. eauto using match_word_run_prefix.
Qed.

Lemma split_scan_concat s : forall before skip seg,
  (skip <= length s)%nat ->
  concat (split_scan unicode_isalnum before s skip seg) = seg ++ drop skip s.
Proof.
  induction s as [|c s IH]; intros before skip seg Hskip.
  - simpl. rewrite drop_nil. reflexivity.
  - cbn [length] in Hskip. destruct skip as [|k]; cbn [split_scan].
    + destruct (match_at unicode_isalnum before (c :: s)) as [m|] eqn:Hm.
      * apply match_at_prefix in Hm as [Hlen Hpre].
        destruct m as [|c' m']; simpl in Hlen, Hpre; [lia|].
        injection Hpre as -> Hpre'.
        assert (length m' <= length s)%nat as Hle.
        { rewrite Hpre', length_take. lia. }
        simpl. rewrite IH by exact Hle. simpl.
        rewrite Hpre' at 1. rewrite take_drop. reflexivity.
      * rewrite IH by lia. simpl. rewrite <- app_assoc. reflexivity.
    + rewrite IH by lia. reflexivity.
Qed.

Lemma concat_filter_truthy (l : list pystr) :
  concat (List.filter truthy l) = concat l.
Proof.
  induction l as [|x l IH]; simpl; [reflexivity|].
  destruct x; simpl; [exact IH|]. rewrite IH. reflexivity.
Qed.

(** C2. Lossless tokenization: for every string [s], the parts that
    [re.split] yields for the pattern [(\b\w+\b)], with the empty ones
    dropped, are all non-empty and their concatenation in order is [s]. *)
Theorem tokenization_lossless (s : pystr) :
  Forall (fun part => part <> []) (text_parts unicode_isalnum s)
  /\ concat (text_parts unicode_isalnum s) = s.
Proof.
  unfold text_parts. split.
  - apply Forall_forall. intros part Hin.
    apply list_elem_of_In, filter_In in Hin as [_ Ht].
    destruct part; [discriminate|congruence].
  - rewrite concat_filter_truthy. unfold re_split.
    rewrite split_scan_concat by (simpl; lia). reflexivity.
Qed.

End TextFacts.

Example re_split_sentence :
  re_split Demo.unicode_isalnum (u "Hi. a_b  c") =
  [ []; u "Hi"; u ". "; u "a_b"; u "  "; u "c"; [] ].
Proof. vm_compute. reflexivity. Qed.

Example text_parts_sentence :
  text_parts Demo.unicode_isalnum (u "Hi. a_b  c") =
  [ u "Hi"; u ". "; u "a_b"; u "  "; u "c" ].
Proof. vm_compute. reflexivity. Qed.

Example text_parts_empty : text_parts Demo.unicode_isalnum [] = [].
Proof. reflexivity. Qed.

(** ** Syllable styler *)

Lemma mod2_odd (i : nat) : (i mod 2 =? 1)%nat = Nat.odd i.
Proof.
  rewrite (Nat.div_mod_eq i 2) at 2.
  rewrite Nat.add_comm, Nat.odd_add_mul_2.
  pose proof (Nat.mod_upper_bound i 2 ltac:(lia)) as Hlt.
  destruct (i mod 2)%nat as [|[|r]]; [reflexivity|reflexivity|lia].
Qed.

Lemma half_succ_succ (n : nat) : (S (S n) / 2 = S (n / 2))%nat.
Proof.
  replace (S (S n)) with (n + 1 * 2)%nat by lia.
  rewrite Nat.div_add by lia. lia.
Qed.

Lemma new_elements_length i syls : length (new_elements i syls) = length syls.
Proof. revert i. induction syls; intros i; simpl; auto. Qed.

Lemma new_elements_lookup syls : forall i k syl,
  syls !! k = Some syl ->
  new_elements i syls !! k =
    Some (if Nat.odd (i + k) then bold_tag syl else Str NavigableString syl).
Proof.
  induction syls as [|s syls IH]; intros i k syl Hk; [discriminate|].
  cbn [new_elements]. rewrite mod2_odd.
  destruct k as [|k]; simpl in Hk |- *.
  - injection Hk as ->. rewrite Nat.add_0_r. reflexivity.
  - replace (i + S k)%nat with (S i + k)%nat by lia. exact (IH (S i) k syl Hk).
Qed.

Lemma new_elements_emphasized syls : forall i,
  length (List.filter emphasized (new_elements i syls)) =
    ((length syls + (if Nat.odd i then 1 else 0)) / 2)%nat.
Proof.
  induction syls as [|s syls IH]; intros i.
  - simpl. destruct (Nat.odd i); reflexivity.
  - cbn [new_elements length]. rewrite mod2_odd.
    specialize (IH (S i)). rewrite Nat.odd_succ, <- Nat.negb_odd in IH.
    destruct (Nat.odd i); cbn [List.filter emphasized bold_tag negb] in *.
    + rewrite bool_decide_eq_true_2 by reflexivity. cbn [length].
      rewrite IH, Nat.add_0_r.
      replace (S (length syls) + 1)%nat with (S (S (length syls))) by lia.
      rewrite half_succ_succ. reflexivity.
    + rewrite IH, Nat.add_0_r. f_equal. lia.
Qed.

Lemma new_elements_text syls : forall i,
  concat (fragment_text <$> new_elements i syls) = concat syls.
Proof.
  induction syls as [|s syls IH]; intros i; [reflexivity|].
  cbn [new_elements fmap list_fmap concat]. rewrite IH.
  destruct (i mod 2 =? 1)%nat; simpl; [|reflexivity].
  rewrite app_nil_r. reflexivity.
Qed.

Section StylerFacts.

Variable unicode_isalnum : N -> bool.
Variable hyphenator : pystr -> result (list pystr).

(** C1. Alternation law: when the hyphenator returns [n >= 2] syllables
    for a word, the styler returns [n] fragments in the order of the
    syllables; the fragment at index [i] carries syllable [i] and is
    emphasized exactly when [i] is odd, so [n / 2] fragments are
    emphasized, and the fragment texts concatenated are the syllables
    concatenated. *)
Theorem alternation_law (word : pystr) (syls : list pystr) :
  hyphenator word = Ok syls ->
  (2 <= length syls)%nat ->
  let out := fst (create_styled_syllables hyphenator word) in
  length out = length syls
  /\ (forall i syl, syls !! i = Some syl ->
        out !! i = Some (if Nat.odd i then bold_tag syl
                         else Str NavigableString syl))
  /\ (forall i frag, out !! i = Some frag -> emphasized frag = Nat.odd i)
  /\ length (List.filter emphasized out) = (length syls / 2)%nat
  /\ concat (fragment_text <$> out) = concat syls.
Proof.
  intros Hsyl Hlen out.
  assert (out = new_elements 0 syls) as ->.
  { unfold out, create_styled_syllables. rewrite Hsyl.
    destruct syls as [|s1 [|s2 syls']]; simpl in Hlen; try lia.
    reflexivity. }
  split; [apply new_elements_length|].
  split; [intros i syl Hi; apply (new_elements_lookup syls 0 i syl Hi)|].
  split.
  - intros i frag Hfrag.
    destruct (syls !! i) as [syl|] eqn:Hi.
    + rewrite (new_elements_lookup syls 0 i syl Hi) in Hfrag.
      injection Hfrag as <-. simpl. destruct (Nat.odd i); reflexivity.
    + apply lookup_ge_None in Hi. apply lookup_lt_Some in Hfrag.
      rewrite new_elements_length in Hfrag. lia.
  - split; [|apply new_elements_text].
    rewrite new_elements_emphasized. simpl. rewrite Nat.add_0_r.
    reflexivity.
Qed.

(** C3. When the hyphenator raises, or returns no syllable or exactly
    one, the styler returns the word as one plain [NavigableString].  The
    exception ends there: the styler returns normally (after printing a
    warning when there was an exception), and the loop over the parts
    goes on with the parts after the word. *)
Theorem unhyphenated_word_unchanged (word : pystr) :
  (exists e, hyphenator word = Raise e)
  \/ (exists syls, hyphenator word = Ok syls /\ (length syls <= 1)%nat) ->
  fst (create_styled_syllables hyphenator word) = [Str NavigableString word]
  /\ emphasized (Str NavigableString word) = false
  /\ fragment_text (Str NavigableString word) = word
  /\ (forall e, hyphenator word = Raise e ->
        create_styled_syllables hyphenator word =
          ([Str NavigableString word],
           [EvSyllables word; EvPrint (HyphenationFailed word e)]))
  /\ (forall parts,
        isalnum unicode_isalnum word = true -> (1 < length word)%nat ->
        fst (new_content unicode_isalnum hyphenator (word :: parts)) =
          Str NavigableString word
            :: fst (new_content unicode_isalnum hyphenator parts)).
Proof.
  intros Hfail.
  assert (fst (create_styled_syllables hyphenator word)
          = [Str NavigableString word]) as Hone.
  { unfold create_styled_syllables.
    destruct Hfail as [[e He]|[syls [Hs Hlen]]].
    - rewrite He. reflexivity.
    - rewrite Hs. destruct syls as [|s1 [|s2 syls']]; simpl in Hlen;
        try lia; reflexivity. }
  split; [exact Hone|]. do 2 (split; [reflexivity|]). split.
  - intros e He. unfold create_styled_syllables. rewrite He. reflexivity.
  - intros parts Halnum Hlen. cbn [new_content].
    unfold part_content. rewrite Halnum.
    apply Nat.ltb_lt in Hlen. rewrite Hlen. simpl.
    destruct (create_styled_syllables hyphenator word) as [nodes evs].
    simpl in Hone. subst nodes.
    destruct (new_content unicode_isalnum hyphenator parts) as [others evs'].
    reflexivity.
Qed.

End StylerFacts.

Example styled_Silbentrennung :
  create_styled_syllables Demo.syllables_of (u "Silbentrennung") =
  ([Str NavigableString (u "Sil"); bold_tag (u "ben");
    Str NavigableString (u "tren"); bold_tag (u "nung")],
   [EvSyllables (u "Silbentrennung")]).
Proof. vm_compute. reflexivity. Qed.

Example new_content_Hi :
  fst (new_content Demo.unicode_isalnum Demo.syllables_of
         (text_parts Demo.unicode_isalnum (u "Hi."))) =
  [Str NavigableString (u "Hi"); Str NavigableString (u ".")].
Proof. vm_compute. reflexivity. Qed.

(** ** Parts that are no words for the styler *)

Section PartFacts.

Variable unicode_isalnum : N -> bool.
Variable hyphenator : pystr -> result (list pystr).

Lemma isalnum_underscore (part : pystr) :
  underscore ∈ part -> isalnum unicode_isalnum part = false.
Proof.
  intros Hin. unfold isalnum. apply andb_false_iff. right.
  induction part as [|c rest IH]; [inversion Hin|]. cbn [forallb].
  apply elem_of_cons in Hin as [<-|Hin].
  - replace (isalnum_char unicode_isalnum underscore) with false
      by reflexivity.
    reflexivity.
  - rewrite (IH Hin). apply andb_false_r.
Qed.

(** C10. A part of a text node that contains an underscore fails
    [isalnum()]: it is not handed to the hyphenator (no call is made) and
    becomes one plain [NavigableString] with the text of the part. *)
Theorem underscore_part_is_plain (s part : pystr) :
  part ∈ text_parts unicode_isalnum s ->
  underscore ∈ part ->
  isalnum unicode_isalnum part = false
  /\ part_content unicode_isalnum hyphenator part =
       ([Str NavigableString part], [])
  /\ emphasized (Str NavigableString part) = false.
Proof.
  intros _ Hin. pose proof (isalnum_underscore part Hin) as Hal.
  split; [exact Hal|]. split; [|reflexivity].
  unfold part_content. rewrite Hal. reflexivity.
Qed.

End PartFacts.

Example text_parts_foo_bar :
  text_parts Demo.unicode_isalnum (u "foo_bar") = [u "foo_bar"]
  /\ match_at Demo.unicode_isalnum None (u "foo_bar") = Some (u "foo_bar").
Proof. vm_compute. split; reflexivity. Qed.

(** ** Eligibility of text nodes *)



(** Induction over a tree and the trees under it. *)
Lemma node_nested_ind (P : node -> Prop) :
  (forall cls text, P (Str cls text)) ->
  (forall name attrs children,
     Forall P children -> P (Tag name attrs children)) ->
  forall n, P n.
Proof.
  intros Hstr Htag. fix IH 1. intros [cls text|name attrs children].
  - apply Hstr.
  - apply Htag. induction children as [|c children IHc]; constructor.
    + apply IH.
    + exact IHc.
Qed.

Lemma wbind_events {A B} (m : W A) (f : A -> W B) :
  snd (wbind m f) = snd m ++ snd (f (fst m)).
Proof. destruct m as [a e1]. simpl. destruct (f a). reflexivity. Qed.

Section EligibilityFacts.

Variable unicode_isalnum : N -> bool.
Variable hyphenator : pystr -> result (list pystr).

Lemma comment_or_blank_untouched parents cls text :
  cls = Comment \/ strip text = [] ->
  visit_text_node unicode_isalnum hyphenator parents cls text
    = (Untouched, [])
  /\ rewrite_node unicode_isalnum hyphenator parents (Str cls text)
    = ([Str cls text], []).
Proof.
  intros H. unfold rewrite_node, visit_text_node.
  destruct H as [-> | ->]; simpl; [split; reflexivity|].
  rewrite orb_true_r. split; reflexivity.
Qed.

(** Only [Comment] is tested: every other class of string is handled
    like a plain [NavigableString]. *)
Lemma visit_ignores_class parents cls text :
  cls <> Comment ->
  visit_text_node unicode_isalnum hyphenator parents cls text =
  visit_text_node unicode_isalnum hyphenator parents NavigableString text.
Proof. intros H. destruct cls; try reflexivity. contradiction. Qed.

Lemma rewrite_tag parents name attrs children :
  rewrite_node unicode_isalnum hyphenator parents (Tag name attrs children) =
  wbind (rewrite_nodes unicode_isalnum hyphenator (name :: parents) children)
        (fun children' => wret [Tag name attrs children']).
Proof.
  cbn [rewrite_node]. unfold mbind, W_bind. f_equal.
  induction children as [|c children IH]; [reflexivity|].
  cbn [rewrite_nodes]. unfold mbind, W_bind. rewrite <- IH. reflexivity.
Qed.

(** The traversal is the loop over the strings listed beforehand: its calls
    and warnings are those of [visit_text_node] on each listed string, in
    the order of the list. *)
Lemma rewrite_node_visits_strings (n : node) : forall parents,
  snd (rewrite_node unicode_isalnum hyphenator parents n) =
  concat (List.map
            (fun '(ps, cls, text) =>
               snd (visit_text_node unicode_isalnum hyphenator ps cls text))
            (find_all_strings parents n)).
Proof.
  induction n as [cls text|name attrs children IH] using node_nested_ind;
    intros parents.
  - cbn [rewrite_node find_all_strings List.map concat].
    unfold mbind, W_bind. rewrite wbind_events. simpl.
    rewrite !app_nil_r. reflexivity.
  - rewrite rewrite_tag, wbind_events. cbn [find_all_strings wret snd].
    rewrite app_nil_r.
    induction IH as [|c children Hc _ IHchildren]; [reflexivity|].
    cbn [rewrite_nodes List.map concat]. unfold mbind, W_bind.
    rewrite !wbind_events. simpl. rewrite app_nil_r.
    rewrite Hc, IHchildren, map_app, concat_app. reflexivity.
Qed.

End EligibilityFacts.

Example rewrite_document :
  fst (process_html_content Demo.unicode_isalnum Demo.syllables_of
         (BeautifulSoup
            [Tag (u "pre") []
               [Str NavigableString (u "Silbentrennung ");
                Tag (u "span") [] [Str NavigableString (u "Silbentrennung")]];
             Tag (u "script") []
               [Tag (u "i") [] [Str NavigableString (u "Silbentrennung")]];
             Str Comment (u "Silbentrennung");
             Str NavigableString (u "  ")])) =
  BeautifulSoup
    [Tag (u "pre") []
       [Str NavigableString (u "Silbentrennung ");
        Tag (u "span") []
          [Str NavigableString (u "Sil"); bold_tag (u "ben");
           Str NavigableString (u "tren"); bold_tag (u "nung")]];
     Tag (u "script") []
       [Tag (u "i") [] [Str NavigableString (u "Silbentrennung")]];
     Str Comment (u "Silbentrennung");
     Str NavigableString (u "  ")].
Proof. vm_compute. reflexivity. Qed.

(** C6, where the code departs from it: a [CData] string is no [Comment],
    so the test on line 186 lets it through; under a [p] element it is
    tokenized, its word is hyphenated, and the node is replaced by plain
    and bold fragments. *)
Theorem cdata_node_is_rewritten :
  isinstance_Comment CData = false
  /\ visit_text_node Demo.unicode_isalnum Demo.syllables_of
       [u "p"; DOCUMENT_NAME] CData (u "Silbentrennung") =
     (Replaced [Str NavigableString (u "Sil"); bold_tag (u "ben");
                Str NavigableString (u "tren"); bold_tag (u "nung")],
      [EvSyllables (u "Silbentrennung")])
  /\ fst (rewrite_node Demo.unicode_isalnum Demo.syllables_of
            [u "p"; DOCUMENT_NAME] (Str CData (u "...")))
     = [Str NavigableString (u "...")].
Proof. vm_compute. repeat split; reflexivity. Qed.

(** ** The hyphenator cache *)

Section ProgramFacts.

Variable unicode_isalnum : N -> bool.
Variable Hyphenator : Type.
Variable E : Type.
Variable dictools_is_installed : pystr -> E -> result bool.
Variable dictools_install : pystr -> E -> result unit * E.
Variable Hyphenator_init : pystr -> E -> result Hyphenator * E.
Variable Hyphenator_syllables : Hyphenator -> pystr -> result (list pystr).
Variable BeautifulSoup_init : pystr -> result soup.
Variable soup_str : soup -> pystr.
Variable Path_exists : Path -> E -> bool.
Variable Path_read_text : Path -> E -> result pystr.
Variable Path_mkdir : Path -> E -> result unit * E.
Variable Path_write_text : Path -> pystr -> E -> result unit * E.

Local Abbreviation world := (world Hyphenator E).
Local Abbreviation cache_of := (_HYPHENATOR_CACHE Hyphenator E).
Local Abbreviation outside_of := (outside Hyphenator E).
Local Abbreviation trace_of := (trace Hyphenator E).
Local Abbreviation get_hyphenator_ :=
  (get_hyphenator Hyphenator E dictools_is_installed dictools_install
     Hyphenator_init).
Local Abbreviation process_html_file_content_ :=
  (process_html_file_content unicode_isalnum Hyphenator E
     dictools_is_installed dictools_install Hyphenator_init
     Hyphenator_syllables BeautifulSoup_init soup_str).
Local Abbreviation process_html_file_ :=
  (process_html_file unicode_isalnum Hyphenator E
     dictools_is_installed dictools_install Hyphenator_init
     Hyphenator_syllables BeautifulSoup_init soup_str
     Path_read_text Path_mkdir Path_write_text).
Local Abbreviation emphasize_file_content_ :=
  (emphasize_file_content unicode_isalnum Hyphenator E
     dictools_is_installed dictools_install Hyphenator_init
     Hyphenator_syllables BeautifulSoup_init soup_str
     Path_exists Path_read_text Path_mkdir Path_write_text).

(** [get_hyphenator] never writes to [_HYPHENATOR_CACHE], and calls
    nothing but the dictionary tools and the constructor. *)
Lemma get_hyphenator_effects lang (w : world) :
  cache_of (snd (get_hyphenator_ lang w))
    = cache_of w
  /\ exists evs,
       trace_of (snd (get_hyphenator_ lang w)) = trace_of w ++ evs
       /\ forallb dictionary_event evs = true.
Proof.
  unfold get_hyphenator.
  destruct (negb _); [|split; [reflexivity|exists []; split;
    [rewrite app_nil_r; reflexivity|reflexivity]]].
  unfold try_except, mbind, M_bind, bind, query, command, mret, M_ret, ret.
  cbn [record _HYPHENATOR_CACHE outside trace].
  destruct (dictools_is_installed lang (outside_of w)) as [[|]|e].
  - cbn. destruct (Hyphenator_init lang (outside_of w)) as [[h|e] e'];
      (split; [reflexivity|]); eexists;
      (split; [rewrite <- app_assoc; reflexivity|reflexivity]).
  - cbn. destruct (dictools_install lang (outside_of w)) as [[[]|e] e'].
    + cbn. destruct (Hyphenator_init lang e') as [[h|e] e''];
        (split; [reflexivity|]); eexists;
        (split; [rewrite <- !app_assoc; reflexivity|reflexivity]).
    + cbn. split; [reflexivity|]. eexists.
      split; [rewrite <- !app_assoc; reflexivity|reflexivity].
  - cbn. split; [reflexivity|]. eexists.
    split; [reflexivity|reflexivity].
Qed.

(** With the dictionary installed and a constructor that succeeds, a call
    on a cache without the language looks the dictionary up, constructs a
    handle and returns it; the cache is as before. *)
Lemma get_hyphenator_constructs lang (w : world) h e' :
  lang ∉ dom (cache_of w) ->
  dictools_is_installed lang (outside_of w) = Ok true ->
  Hyphenator_init lang (outside_of w) = (Ok h, e') ->
  get_hyphenator_ lang w =
    (Ok (Some h),
     World _ _ (cache_of w) e'
       (trace_of w ++ [EvIsInstalled lang; EvNewHyphenator lang])).
Proof.
  intros Hcache Hinst Hinit.
  unfold get_hyphenator.
  rewrite bool_decide_eq_false_2 by exact Hcache. cbn [negb].
  unfold try_except, mbind, M_bind, bind, query, command, mret, M_ret, ret.
  cbn [record _HYPHENATOR_CACHE outside trace].
  rewrite Hinst. cbn. rewrite Hinit. rewrite <- app_assoc. reflexivity.
Qed.

(** ** Fatal errors before any processing *)

(** C7. When [get_hyphenator] returns [None], [process_html_file_content]
    raises its [RuntimeError] at once: the world is the one
    [get_hyphenator] left, in which only dictionary tools and the
    constructor were called (no parser, no hyphenation, no printing), and
    [process_html_file], having read the input, raises the same error
    without creating a directory or writing a file. *)
Theorem hyphenator_unavailable_is_fatal (html : pystr) (w w' : world) :
  get_hyphenator_ TARGET_LANG w = (Ok None, w') ->
  process_html_file_content_ html w =
    (Raise (RuntimeError (HyphenatorNotInitialized TARGET_LANG)), w')
  /\ (exists evs, trace_of w' = trace_of w ++ evs
                  /\ forallb dictionary_event evs = true)
  /\ (forall input output w0,
        Path_read_text input (outside_of w0) = Ok html ->
        w = record Hyphenator E (EvReadText input) w0 ->
        process_html_file_ input output w0 =
          (Raise (RuntimeError (HyphenatorNotInitialized TARGET_LANG)), w')).
Proof.
  intros Hget.
  assert (process_html_file_content_ html w =
    (Raise (RuntimeError (HyphenatorNotInitialized TARGET_LANG)), w'))
    as Hcontent.
  { unfold process_html_file_content, mbind, M_bind, bind.
    rewrite Hget. reflexivity. }
  split; [exact Hcontent|]. split.
  - destruct (get_hyphenator_effects TARGET_LANG w) as [_ Hevs].
    rewrite Hget in Hevs. exact Hevs.
  - intros input output w0 Hread ->.
    unfold process_html_file, mbind, M_bind, bind, try_except, query.
    rewrite Hread.
    unfold process_html_file_content, mbind, M_bind, bind in Hcontent.
    unfold process_html_file_content, mbind, M_bind, bind.
    rewrite Hget in Hcontent |- *. reflexivity.
Qed.

(** C8. Extension gate: for an input path that exists and whose suffix is
    neither [.html] nor [.xhtml], [emphasize_file_content] raises an
    error (the [ValueError] for the unsupported input, or the assertion
    error when in-place and an output path are both given) and has done
    nothing but ask whether the input exists: the machine is as before. *)
Theorem extension_gate (args : Args) (w : world) :
  Path_exists (input_path args) (outside_of w) = true ->
  path_suffix (input_path args) ∉ html_input ->
  emphasize_file_content_ args w =
    (Raise (if inplace args && bool_decide (output_path args <> None)
            then AssertionError EitherOutputOrInplace
            else ValueError (UnsupportedInput
                               (path_suffix (input_path args)) html_input)),
     record Hyphenator E (EvExists (input_path args)) w)
  /\ outside_of (snd (emphasize_file_content_ args w)) = outside_of w.
Proof.
  intros Hexists Hsuffix.
  assert (py_in (path_suffix (input_path args)) html_input = false) as Hin.
  { unfold py_in. apply bool_decide_eq_false_2. exact Hsuffix. }
  unfold emphasize_file_content, mbind, M_bind, bind, query, mret, M_ret,
    ret, raise.
  cbn [record outside]. rewrite Hexists. cbn [negb].
  destruct (inplace args), (output_path args) as [o|]; cbn;
    rewrite ?Hin; split; reflexivity.
Qed.

(** C9. In-place together with an output path is refused before anything
    is read, processed or written (with the assertion error, or with the
    error for a missing input when the input does not exist).  With
    neither, an existing input of a supported kind is processed into the
    file named by the input's stem followed by [_syll_emph.html], in the
    directory of the input. *)
Theorem output_path_rules (args : Args) (w : world) :
  (inplace args = true -> output_path args <> None ->
   emphasize_file_content_ args w =
     (Raise (if Path_exists (input_path args) (outside_of w)
             then AssertionError EitherOutputOrInplace
             else ValueError (InputDoesNotExist (input_path args))),
      record Hyphenator E (EvExists (input_path args)) w))
  /\ (inplace args = false -> output_path args = None ->
      Path_exists (input_path args) (outside_of w) = true ->
      path_suffix (input_path args) ∈ html_input ->
      emphasize_file_content_ args w =
        process_html_file_ (input_path args)
          (path_join (path_parent (input_path args))
             (path_stem (input_path args) ++ u "_syll_emph.html"))
          (record Hyphenator E (EvExists (input_path args)) w)).
Proof.
  split.
  - intros Hin Hout.
    unfold emphasize_file_content, mbind, M_bind, bind, query, mret, M_ret,
      ret, raise.
    cbn [record outside]. rewrite Hin.
    destruct (Path_exists (input_path args) (outside_of w)); cbn [negb];
      [|reflexivity].
    rewrite bool_decide_eq_false_2 by exact Hout. reflexivity.
  - intros Hin Hout Hexists Hsuffix.
    unfold emphasize_file_content, mbind, M_bind, bind, query, mret, M_ret,
      ret, raise.
    cbn [record outside]. rewrite Hexists, Hin, Hout. cbn [negb].
    unfold py_in. rewrite bool_decide_eq_true_2 by exact Hsuffix.
    reflexivity.
Qed.

End ProgramFacts.

(** C5, where the code departs from it: nothing is ever stored in
    [_HYPHENATOR_CACHE], so a second call of [get_hyphenator] for the same
    language, after a first one that succeeded, looks the dictionary up
    again and constructs a second handle; the cache is still empty. *)
Theorem get_hyphenator_constructs_again :
  let first := Demo.get_hyphenator TARGET_LANG Demo.start in
  let second := Demo.get_hyphenator TARGET_LANG (snd first) in
  fst first = Ok (Some 0%nat)
  /\ fst second = Ok (Some 1%nat)
  /\ _HYPHENATOR_CACHE _ _ (snd second) = ∅
  /\ trace _ _ (snd second) =
       [EvIsInstalled TARGET_LANG; EvNewHyphenator TARGET_LANG;
        EvIsInstalled TARGET_LANG; EvNewHyphenator TARGET_LANG].
Proof. vm_compute. repeat split; reflexivity. Qed.

Example run_on_chapter :
  trace _ _ (snd (Demo.emphasize_file_content
                    (mkArgs Demo.chapter false None) Demo.start)) =
  [EvExists Demo.chapter; EvReadText Demo.chapter;
   EvIsInstalled TARGET_LANG; EvNewHyphenator TARGET_LANG;
   EvParse (u "Die Silbentrennung.");
   EvSyllables (u "Die"); EvSyllables (u "Silbentrennung");
   EvMkdir (mkPath false [u "books"]);
   EvWriteText (mkPath false [u "books"; u "ch1_syll_emph.html"])
     (u "<p>Die Sil<b>ben</b>tren<b>nung</b>.</p>")].
Proof. vm_compute. reflexivity. Qed.

Example run_in_place :
  fst (Demo.emphasize_file_content
         (mkArgs Demo.chapter true None) Demo.start) = Ok tt
  /\ last (trace _ _ (snd (Demo.emphasize_file_content
                             (mkArgs Demo.chapter true None) Demo.start))) =
     Some (EvWriteText Demo.chapter
             (u "<p>Die Sil<b>ben</b>tren<b>nung</b>.</p>")).
Proof. vm_compute. split; reflexivity. Qed.

(** ** The theorems at concrete inputs *)

Lemma alternation_law_witness :
  Demo.syllables_of (u "Silbentrennung")
    = Ok [u "Sil"; u "ben"; u "tren"; u "nung"]
  /\ (2 <= 4)%nat
  /\ length (List.filter emphasized
               (fst (create_styled_syllables Demo.syllables_of
                       (u "Silbentrennung")))) = 2%nat.
Proof.
  assert (Demo.syllables_of (u "Silbentrennung")
          = Ok [u "Sil"; u "ben"; u "tren"; u "nung"]) as Hsyl
    by (vm_compute; reflexivity).
  assert (2 <= length [u "Sil"; u "ben"; u "tren"; u "nung"])%nat as Hlen
    by (simpl; lia).
  split; [exact Hsyl|]. split; [lia|].
  exact (proj1 (proj2 (proj2 (proj2
    (alternation_law Demo.syllables_of (u "Silbentrennung") _ Hsyl Hlen))))).
Defined.

Lemma unhyphenated_word_unchanged_witness :
  Demo.syllables_of (u "Fehler") = Raise (LibraryError 3)
  /\ fst (create_styled_syllables Demo.syllables_of (u "Fehler"))
     = [Str NavigableString (u "Fehler")].
Proof.
  assert (Demo.syllables_of (u "Fehler") = Raise (LibraryError 3)) as Hraise
    by (vm_compute; reflexivity).
  split; [exact Hraise|].
  exact (proj1 (unhyphenated_word_unchanged Demo.unicode_isalnum
                  Demo.syllables_of (u "Fehler")
                  (or_introl (ex_intro _ _ Hraise)))).
Defined.

Lemma underscore_part_is_plain_witness :
  (u "foo_bar" ∈ text_parts Demo.unicode_isalnum (u "see foo_bar"))
  /\ (underscore ∈ u "foo_bar")
  /\ part_content Demo.unicode_isalnum Demo.syllables_of (u "foo_bar")
     = ([Str NavigableString (u "foo_bar")], []).
Proof.
  assert (u "foo_bar" ∈ text_parts Demo.unicode_isalnum (u "see foo_bar"))
    as Hpart by (apply (bool_decide_unpack _); vm_compute; exact I).
  assert (underscore ∈ u "foo_bar") as Hin
    by (apply (bool_decide_unpack _); vm_compute; exact I).
  split; [exact Hpart|]. split; [exact Hin|].
  exact (proj1 (proj2 (underscore_part_is_plain Demo.unicode_isalnum
                         Demo.syllables_of _ _ Hpart Hin))).
Defined.

Lemma hyphenator_unavailable_is_fatal_witness :
  fst (Demo.get_hyphenator TARGET_LANG Demo.offline) = Ok None
  /\ fst (Demo.process_html_file_content (u "Die Silbentrennung.")
            Demo.offline)
     = Raise (RuntimeError (HyphenatorNotInitialized TARGET_LANG)).
Proof.
  assert (Demo.get_hyphenator TARGET_LANG Demo.offline =
          (Ok None, snd (Demo.get_hyphenator TARGET_LANG Demo.offline)))
    as Hget by (vm_compute; reflexivity).
  split; [vm_compute; reflexivity|].
  unfold Demo.process_html_file_content.
  rewrite (proj1 (hyphenator_unavailable_is_fatal Demo.unicode_isalnum nat
                    Demo.machine Demo.is_installed Demo.install Demo.init
                    Demo.syllables Demo.parse Demo.to_str Demo.read_text
                    Demo.mkdir Demo.write_text (u "Die Silbentrennung.")
                    Demo.offline _ Hget)).
  reflexivity.
Defined.

Lemma extension_gate_witness :
  Demo.file_exists Demo.notes_txt (outside _ _ Demo.start) = true
  /\ (path_suffix Demo.notes_txt ∉ html_input)
  /\ fst (Demo.emphasize_file_content (mkArgs Demo.notes_txt false None)
            Demo.start)
     = Raise (ValueError (UnsupportedInput (u ".txt") html_input))
  /\ trace _ _ (snd (Demo.emphasize_file_content
                       (mkArgs Demo.notes_txt false None) Demo.start))
     = [EvExists Demo.notes_txt].
Proof.
  assert (Demo.file_exists Demo.notes_txt (outside _ _ Demo.start) = true)
    as Hexists by (vm_compute; reflexivity).
  assert (path_suffix Demo.notes_txt ∉ html_input) as Hkind
    by (apply (bool_decide_unpack _); vm_compute; exact I).
  split; [exact Hexists|]. split; [exact Hkind|].
  unfold Demo.emphasize_file_content.
  rewrite (proj1 (extension_gate Demo.unicode_isalnum nat Demo.machine
                    Demo.is_installed Demo.install Demo.init Demo.syllables
                    Demo.parse Demo.to_str Demo.file_exists Demo.read_text
                    Demo.mkdir Demo.write_text
                    (mkArgs Demo.notes_txt false None) Demo.start
                    Hexists Hkind)).
  split; reflexivity.
Defined.

Lemma output_path_rules_witness :
  fst (Demo.emphasize_file_content
         (mkArgs Demo.chapter true (Some Demo.notes_txt)) Demo.start)
    = Raise (AssertionError EitherOutputOrInplace)
  /\ (path_suffix Demo.chapter ∈ html_input)
  /\ Demo.emphasize_file_content (mkArgs Demo.chapter false None) Demo.start
     = process_html_file Demo.unicode_isalnum nat Demo.machine
         Demo.is_installed Demo.install Demo.init Demo.syllables
         Demo.parse Demo.to_str Demo.read_text Demo.mkdir Demo.write_text
         Demo.chapter (mkPath false [u "books"; u "ch1_syll_emph.html"])
         (record nat Demo.machine (EvExists Demo.chapter) Demo.start).
Proof.
  assert (path_suffix Demo.chapter ∈ html_input) as Hkind
    by (apply (bool_decide_unpack _); vm_compute; exact I).
  assert (Some Demo.notes_txt <> None) as Hout by discriminate.
  pose proof (output_path_rules Demo.unicode_isalnum nat Demo.machine
                Demo.is_installed Demo.install Demo.init Demo.syllables
                Demo.parse Demo.to_str Demo.file_exists Demo.read_text
                Demo.mkdir Demo.write_text) as Hrules.
  split.
  - unfold Demo.emphasize_file_content.
    rewrite (proj1 (Hrules (mkArgs Demo.chapter true (Some Demo.notes_txt))
                           Demo.start) eq_refl Hout).
    reflexivity.
  - split; [exact Hkind|].
    exact (proj2 (Hrules (mkArgs Demo.chapter false None) Demo.start)
                 eq_refl eq_refl eq_refl Hkind).
Defined.

(** * Further properties of the code *)

(** ** Shape of the parts of a text node *)

Section TokenShape.

Variable unicode_isalnum : N -> bool.

Local Abbreviation is_word_ := (is_word unicode_isalnum).
Local Abbreviation is_word_opt_ := (is_word_opt unicode_isalnum).
Local Abbreviation non_word_ := (non_word unicode_isalnum).
Local Abbreviation one_kind_ := (one_kind unicode_isalnum).
Local Abbreviation scan_state_ := (scan_state unicode_isalnum).

(** After a word character the run [\w+\b] always matches, and it takes
    every word character that follows: the greedy match never has to give
    a character back. *)
Lemma match_word_run_maximal rest : forall prev,
  is_word_ prev = true ->
  exists m, match_word_run unicode_isalnum prev rest = Some m
            /\ forallb is_word_ m = true
            /\ is_word_opt_ (head (drop (length m) rest)) = false.
Proof.
  induction rest as [|c rest IH]; intros prev Hprev.
  - exists []. simpl. unfold word_boundary. simpl. rewrite Hprev.
    repeat split; reflexivity.
  - cbn [match_word_run]. destruct (is_word_ c) eqn:Hc.
    + destruct (IH c Hc) as [m [Hm [Hall Hnext]]]. rewrite Hm.
      exists (c :: m). simpl. rewrite Hc, Hall. repeat split; assumption.
    + exists []. unfold word_boundary. simpl. rewrite Hprev, Hc.
      repeat split; reflexivity.
Qed.

Lemma match_at_some before s m :
  match_at unicode_isalnum before s = Some m ->
  forallb is_word_ m = true
  /\ is_word_opt_ (head (drop (length m) s)) = false.
Proof.
  destruct s as [|c rest]; [discriminate|]. cbn [match_at].
  destruct (is_word_ c) eqn:Hc; [|rewrite andb_false_r; discriminate].
  destruct (match_word_run_maximal rest c Hc) as [m' [Hm [Hall Hnext]]].
  rewrite Hm. destruct (word_boundary _ _ _ && true); [|discriminate].
  intros [= <-]. simpl. rewrite Hc, Hall. split; [reflexivity|exact Hnext].
Qed.

Lemma match_at_none before c rest :
  match_at unicode_isalnum before (c :: rest) = None ->
  is_word_ c = false \/ is_word_opt_ before = true.
Proof.
  cbn [match_at]. destruct (is_word_ c) eqn:Hc; [|left; reflexivity].
  destruct (match_word_run_maximal rest c Hc) as [m' [Hm _]]. rewrite Hm.
  unfold word_boundary. simpl. rewrite Hc.
  destruct (is_word_opt_ before); [right; reflexivity|discriminate].
Qed.

Lemma split_scan_one_kind s : forall before skip seg,
  forallb non_word_ seg = true ->
  scan_state_ before s skip ->
  Forall one_kind_ (split_scan unicode_isalnum before s skip seg).
Proof.
  induction s as [|c s IH]; intros before skip seg Hseg Hstate.
  - simpl. constructor; [right; exact Hseg|constructor].
  - destruct skip as [|k]; cbn [split_scan].
    + destruct (match_at unicode_isalnum before (c :: s)) as [m|] eqn:Hm.
      * pose proof (match_at_prefix _ _ _ _ Hm) as [Hlen Hpre].
        pose proof (match_at_some _ _ _ Hm) as [Hall Hnext].
        destruct m as [|c' m']; simpl in Hlen; [lia|].
        cbn [length take] in Hpre. injection Hpre as -> Hpre'.
        cbn [length drop] in Hnext. cbn [forallb] in Hall.
        apply andb_true_iff in Hall as [Hc Hall'].
        constructor; [right; exact Hseg|].
        constructor; [left; simpl; rewrite Hc, Hall'; reflexivity|].
        cbn [length Nat.pred]. apply IH; [reflexivity|].
        unfold scan_state. destruct (length m') as [|k] eqn:Hk.
        -- intros _. exact Hnext.
        -- split; [rewrite <- Hk, Hpre', length_take; lia|].
           split; [rewrite <- Hpre'; exact Hall'|exact Hnext].
      * assert (is_word_ c = false) as Hc.
        { destruct (match_at_none _ _ _ Hm) as [Hc|Hb]; [exact Hc|].
          exact (Hstate Hb). }
        apply IH.
        -- rewrite forallb_app, Hseg. simpl. unfold non_word.
           rewrite Hc. reflexivity.
        -- unfold scan_state. simpl. rewrite Hc. discriminate.
    + destruct Hstate as [Hle [Hall Hnext]]. cbn [take forallb] in Hall.
      apply andb_true_iff in Hall as [Hc Hall']. cbn [drop] in Hnext.
      cbn [length] in Hle. apply IH; [exact Hseg|].
      unfold scan_state. destruct k as [|k].
      * intros _. exact Hnext.
      * split; [lia|]. split; assumption.
Qed.

End TokenShape.

Section TokenFacts.

Variable unicode_isalnum : N -> bool.
Variable hyphenator : pystr -> result (list pystr).

Lemma text_parts_concat (s : pystr) :
  concat (text_parts unicode_isalnum s) = s.
Proof.
  unfold text_parts, re_split. rewrite concat_filter_truthy.
  rewrite split_scan_concat by (simpl; lia). reflexivity.
Qed.

Lemma text_parts_nonempty (s : pystr) :
  s <> [] -> text_parts unicode_isalnum s <> [].
Proof.
  intros Hs Hparts. apply Hs. rewrite <- (text_parts_concat s), Hparts.
  reflexivity.
Qed.

(** Every part of a text node is of one kind: it consists of word
    characters only (a match of the pattern) or contains none (the text
    between two matches). *)
Theorem text_parts_one_kind (s : pystr) :
  Forall (one_kind unicode_isalnum) (text_parts unicode_isalnum s).
Proof.
  unfold text_parts, re_split.
  assert (Forall (one_kind unicode_isalnum)
            (split_scan unicode_isalnum None s 0 [])) as Hall.
  { apply split_scan_one_kind; [reflexivity|]. simpl. discriminate. }
  apply Forall_forall. intros part Hin.
  apply list_elem_of_In, filter_In in Hin as [Hin _].
  rewrite Forall_forall in Hall. apply Hall, list_elem_of_In, Hin.
Qed.

Lemma split_scan_no_word s : forall before seg,
  forallb (non_word unicode_isalnum) s = true ->
  split_scan unicode_isalnum before s 0 seg = [seg ++ s].
Proof.
  induction s as [|c s IH]; intros before seg Hs.
  - simpl. rewrite app_nil_r. reflexivity.
  - cbn [forallb] in Hs. apply andb_true_iff in Hs as [Hc Hs].
    unfold non_word in Hc. apply negb_true_iff in Hc.
    cbn [split_scan match_at]. rewrite Hc, andb_false_r.
    rewrite (IH _ _ Hs), <- app_assoc. reflexivity.
Qed.

Lemma isalnum_is_word (part : pystr) :
  isalnum unicode_isalnum part = true ->
  forallb (is_word unicode_isalnum) part = true.
Proof.
  unfold isalnum. intros [_ Hall]%andb_true_iff.
  induction part as [|c part IH]; [reflexivity|].
  cbn [forallb] in *. apply andb_true_iff in Hall as [Hc Hall].
  unfold is_word at 1. rewrite Hc, (IH Hall). reflexivity.
Qed.

(** A text without any word character (punctuation, spaces, symbols) is one
    part; the node is replaced by one plain [NavigableString] with the same
    text, and the hyphenator is not called. *)
Theorem text_without_words (text : pystr) :
  text <> [] ->
  forallb (non_word unicode_isalnum) text = true ->
  text_parts unicode_isalnum text = [text]
  /\ process_text_node unicode_isalnum hyphenator text true =
       (Replaced [Str NavigableString text], []).
Proof.
  intros Hne Hnon.
  assert (text_parts unicode_isalnum text = [text]) as Hparts.
  { unfold text_parts, re_split. rewrite (split_scan_no_word _ _ _ Hnon).
    destruct text; [contradiction|reflexivity]. }
  split; [exact Hparts|].
  unfold process_text_node. rewrite Hparts. cbn [truthy negb new_content].
  unfold part_content.
  assert (isalnum unicode_isalnum text = false) as Hal.
  { apply not_true_is_false. intros Hal%isalnum_is_word.
    destruct text as [|c text]; [contradiction|].
    cbn [forallb] in Hal, Hnon. unfold non_word in Hnon.
    destruct (is_word unicode_isalnum c); discriminate. }
  rewrite Hal. reflexivity.
Qed.

End TokenFacts.

Lemma text_without_words_witness :
  u "... " <> []
  /\ forallb (non_word Demo.unicode_isalnum) (u "... ") = true
  /\ process_text_node Demo.unicode_isalnum Demo.syllables_of (u "... ") true
     = (Replaced [Str NavigableString (u "... ")], []).
Proof.
  assert (u "... " <> []) as Hne by (vm_compute; discriminate).
  assert (forallb (non_word Demo.unicode_isalnum) (u "... ") = true) as Hnon
    by (vm_compute; reflexivity).
  split; [exact Hne|]. split; [exact Hnon|].
  exact (proj2 (text_without_words Demo.unicode_isalnum Demo.syllables_of
                  (u "... ") Hne Hnon)).
Defined.

(** ** What the rewriting keeps *)

Lemma wbind_value {A B} (m : W A) (f : A -> W B) :
  fst (wbind m f) = fst (f (fst m)).
Proof. destruct m as [a e1]. simpl. destruct (f a). reflexivity. Qed.

Lemma new_elements_shape syls : forall i,
  Forall plain_or_bold (new_elements i syls).
Proof.
  induction syls as [|s syls IH]; intros i; cbn [new_elements];
    constructor; [|apply IH].
  exists s. destruct (i mod 2 =? 1)%nat; [right|left]; reflexivity.
Qed.

Section RewritingFacts.

Variable unicode_isalnum : N -> bool.
Variable hyphenator : pystr -> result (list pystr).

Local Abbreviation create_styled_syllables_ :=
  (create_styled_syllables hyphenator).
Local Abbreviation new_content_ := (new_content unicode_isalnum hyphenator).
Local Abbreviation process_text_node_ :=
  (process_text_node unicode_isalnum hyphenator).
Local Abbreviation rewrite_node_ := (rewrite_node unicode_isalnum hyphenator).
Local Abbreviation rewrite_nodes_ :=
  (rewrite_nodes unicode_isalnum hyphenator).

Lemma create_styled_nodes word :
  fst (create_styled_syllables_ word) =
  match hyphenator word with
  | Ok (s1 :: s2 :: syls) => new_elements 0 (s1 :: s2 :: syls)
  | _ => [Str NavigableString word]
  end.
Proof.
  unfold create_styled_syllables. unfold mbind, W_bind.
  rewrite wbind_value. destruct (hyphenator word) as [[|s1 [|s2 syls]]|e];
    reflexivity.
Qed.

Lemma create_styled_events word :
  snd (create_styled_syllables_ word) =
  EvSyllables word ::
  match hyphenator word with
  | Raise e => [EvPrint (HyphenationFailed word e)]
  | Ok _ => []
  end.
Proof.
  unfold create_styled_syllables. unfold mbind, W_bind.
  rewrite wbind_events. destruct (hyphenator word) as [[|s1 [|s2 syls]]|e];
    reflexivity.
Qed.

Lemma part_content_nonempty part :
  fst (part_content unicode_isalnum hyphenator part) <> [].
Proof.
  unfold part_content. destruct (_ && _); [|discriminate].
  rewrite create_styled_nodes.
  destruct (hyphenator part) as [[|s1 [|s2 syls]]|e]; discriminate.
Qed.

Lemma part_content_shape part :
  Forall plain_or_bold (fst (part_content unicode_isalnum hyphenator part)).
Proof.
  assert (forall s, Forall plain_or_bold [Str NavigableString s]) as Hone.
  { intros s. constructor; [exists s; left; reflexivity|constructor]. }
  unfold part_content. destruct (_ && _); [|apply Hone].
  rewrite create_styled_nodes.
  destruct (hyphenator part) as [[|s1 [|s2 syls]]|e]; try apply Hone.
  apply new_elements_shape.
Qed.

Lemma part_content_text part :
  cuts_only hyphenator ->
  nodes_text (fst (part_content unicode_isalnum hyphenator part)) = part.
Proof.
  intros Hcuts. unfold part_content, nodes_text.
  destruct (_ && _); [|simpl; apply app_nil_r].
  rewrite create_styled_nodes.
  destruct (hyphenator part) as [[|s1 [|s2 syls]]|e] eqn:Hh;
    try (simpl; apply app_nil_r).
  change (List.map fragment_text ?l) with (fragment_text <$> l).
  rewrite new_elements_text. apply (Hcuts _ _ Hh). simpl. lia.
Qed.

Lemma part_content_events part :
  Forall (word_event unicode_isalnum)
         (snd (part_content unicode_isalnum hyphenator part)).
Proof.
  unfold part_content.
  destruct (isalnum unicode_isalnum part) eqn:Hal; [|constructor].
  destruct (1 <? length part)%nat eqn:Hlen; [|constructor].
  apply Nat.ltb_lt in Hlen. cbn [andb]. rewrite create_styled_events.
  constructor.
  - exists part. repeat split; try assumption. left. reflexivity.
  - destruct (hyphenator part) as [syls|e]; [constructor|].
    constructor; [|constructor].
    exists part. repeat split; try assumption. right. exists e. reflexivity.
Qed.

Lemma new_content_nodes parts :
  fst (new_content_ parts) =
  concat (List.map (fun part =>
                      fst (part_content unicode_isalnum hyphenator part))
                   parts).
Proof.
  induction parts as [|part parts IH]; [reflexivity|].
  cbn [new_content List.map concat]. unfold mbind, W_bind.
  rewrite !wbind_value. simpl. rewrite IH. reflexivity.
Qed.

Lemma new_content_events parts :
  snd (new_content_ parts) =
  concat (List.map (fun part =>
                      snd (part_content unicode_isalnum hyphenator part))
                   parts).
Proof.
  induction parts as [|part parts IH]; [reflexivity|].
  cbn [new_content List.map concat]. unfold mbind, W_bind.
  rewrite !wbind_events. simpl. rewrite app_nil_r, IH. reflexivity.
Qed.

Lemma new_content_nonempty parts :
  parts <> [] -> fst (new_content_ parts) <> [].
Proof.
  destruct parts as [|part parts]; [contradiction|]. intros _.
  rewrite new_content_nodes. cbn [List.map concat].
  pose proof (part_content_nonempty part) as Hne.
  destruct (fst (part_content unicode_isalnum hyphenator part));
    [contradiction|discriminate].
Qed.

Lemma new_content_text parts :
  cuts_only hyphenator -> nodes_text (fst (new_content_ parts)) = concat parts.
Proof.
  intros Hcuts. rewrite new_content_nodes. unfold nodes_text.
  induction parts as [|part parts IH]; [reflexivity|].
  cbn [List.map concat]. rewrite map_app, concat_app, IH. f_equal.
  apply (part_content_text part Hcuts).
Qed.

Lemma process_text_node_attached text :
  text <> [] ->
  process_text_node_ text true =
    (Replaced (fst (new_content_ (text_parts unicode_isalnum text))),
     snd (new_content_ (text_parts unicode_isalnum text))).
Proof.
  intros Hne.
  pose proof (text_parts_nonempty unicode_isalnum text Hne) as Hparts.
  pose proof (new_content_nonempty _ Hparts) as Hcontent.
  unfold process_text_node.
  destruct (text_parts unicode_isalnum text) as [|part parts] eqn:Hp;
    [contradiction|].
  cbn [truthy negb]. unfold mbind, W_bind.
  destruct (new_content_ (part :: parts)) as [nodes evs]. simpl in Hcontent.
  destruct nodes as [|n nodes]; [contradiction|]. simpl.
  rewrite app_nil_r. reflexivity.
Qed.

(** A text node's fate: an empty text is left alone; any other text is
    tokenized and, when the node is attached, replaced by a non-empty list
    of nodes (the test [if new_content] never fails); a detached node is
    left alone with the warning printed after the hyphenator calls. *)
Theorem process_text_node_outcome (text : pystr) :
  (text = [] -> forall attached,
     process_text_node_ text attached = (Untouched, []))
  /\ (text <> [] ->
      let content := new_content_ (text_parts unicode_isalnum text) in
      fst content <> []
      /\ process_text_node_ text true = (Replaced (fst content), snd content)
      /\ process_text_node_ text false =
           (Untouched,
            snd content ++ [EvPrint (NodeNoLongerInTree (take 20 text))])).
Proof.
  split.
  - intros -> attached. reflexivity.
  - intros Hne content.
    pose proof (text_parts_nonempty unicode_isalnum text Hne) as Hparts.
    pose proof (new_content_nonempty _ Hparts) as Hcontent.
    fold content in Hcontent. split; [exact Hcontent|].
    split; [apply (process_text_node_attached text Hne)|].
    unfold process_text_node. fold content.
    destruct (text_parts unicode_isalnum text) eqn:Hp; [contradiction|].
    cbn [truthy negb]. unfold mbind, W_bind.
    destruct content as [nodes evs]. simpl in Hcontent.
    destruct nodes as [|n nodes]; [contradiction|]. reflexivity.
Qed.

(** Only [b] elements are added: every node that replaces a text node is
    a plain [NavigableString] or a [b] element around one. *)
Theorem replacement_shape (text : pystr) (attached : bool)
    (content : list node) :
  fst (process_text_node_ text attached) = Replaced content ->
  Forall plain_or_bold content.
Proof.
  unfold process_text_node. destruct (negb _); [discriminate|].
  unfold mbind, W_bind. rewrite wbind_value.
  set (c := new_content_ _).
  destruct (truthy (fst c)); [|discriminate].
  destruct attached; [|unfold mbind, W_bind; rewrite wbind_value;
                       discriminate].
  intros [= <-]. subst c. rewrite new_content_nodes.
  apply Forall_concat, Forall_forall. intros l Hl.
  apply list_elem_of_In, in_map_iff in Hl as [part [<- _]].
  apply part_content_shape.
Qed.

Lemma process_text_node_text (text : pystr) (attached : bool)
    (content : list node) :
  cuts_only hyphenator ->
  fst (process_text_node_ text attached) = Replaced content ->
  nodes_text content = text.
Proof.
  intros Hcuts. unfold process_text_node. destruct (negb _); [discriminate|].
  unfold mbind, W_bind. rewrite wbind_value.
  set (c := new_content_ _).
  destruct (truthy (fst c)); [|discriminate].
  destruct attached; [|unfold mbind, W_bind; rewrite wbind_value;
                       discriminate].
  intros [= <-]. subst c. rewrite (new_content_text _ Hcuts).
  apply text_parts_concat.
Qed.

Lemma process_text_node_events (text : pystr) :
  Forall (word_event unicode_isalnum) (snd (process_text_node_ text true)).
Proof.
  destruct (decide (text = [])) as [->|Hne]; [constructor|].
  rewrite (process_text_node_attached text Hne). cbn [snd].
  rewrite new_content_events.
  apply Forall_concat, Forall_forall. intros l Hl.
  apply list_elem_of_In, in_map_iff in Hl as [part [<- _]].
  apply part_content_events.
Qed.

Lemma visit_text_node_cases parents cls text :
  visit_text_node unicode_isalnum hyphenator parents cls text
    = (Untouched, [])
  \/ visit_text_node unicode_isalnum hyphenator parents cls text
    = process_text_node_ text true.
Proof.
  unfold visit_text_node. destruct (_ || _); [left; reflexivity|].
  destruct (skip_node true parents); [left|right]; reflexivity.
Qed.

Lemma rewrite_nodes_value parents l :
  fst (rewrite_nodes_ parents l) =
  concat (List.map (fun c => fst (rewrite_node_ parents c)) l).
Proof.
  induction l as [|c l IH]; [reflexivity|].
  cbn [rewrite_nodes List.map concat]. unfold mbind, W_bind.
  rewrite !wbind_value. simpl. rewrite IH. reflexivity.
Qed.

Lemma rewrite_nodes_events parents l :
  snd (rewrite_nodes_ parents l) =
  concat (List.map (fun c => snd (rewrite_node_ parents c)) l).
Proof.
  induction l as [|c l IH]; [reflexivity|].
  cbn [rewrite_nodes List.map concat]. unfold mbind, W_bind.
  rewrite !wbind_events. simpl. rewrite app_nil_r, IH. reflexivity.
Qed.

Lemma rewrite_node_events (n : node) : forall parents,
  Forall (word_event unicode_isalnum) (snd (rewrite_node_ parents n)).
Proof.
  induction n as [cls text|name attrs children IH] using node_nested_ind;
    intros parents.
  - cbn [rewrite_node]. unfold mbind, W_bind. rewrite wbind_events.
    apply Forall_app. split.
    + destruct (visit_text_node_cases parents cls text) as [-> | ->];
        [constructor|apply process_text_node_events].
    + destruct (fst _); constructor.
  - rewrite rewrite_tag, wbind_events. cbn [wret snd]. rewrite app_nil_r.
    rewrite rewrite_nodes_events.
    apply Forall_concat, Forall_forall. intros l Hl.
    apply list_elem_of_In, in_map_iff in Hl as [c [<- Hc]].
    rewrite Forall_forall in IH. apply IH, list_elem_of_In, Hc.
Qed.

Lemma process_text_node_shape (text : pystr) (attached : bool)
    (content : list node) :
  fst (process_text_node_ text attached) = Replaced content ->
  Forall plain_or_bold content.
Proof.
  unfold process_text_node. destruct (negb _); [discriminate|].
  unfold mbind, W_bind. rewrite wbind_value.
  set (c := new_content_ _).
  destruct (truthy (fst c)); [|discriminate].
  destruct attached; [|unfold mbind, W_bind; rewrite wbind_value;
                       discriminate].
  intros [= <-]. subst c. rewrite new_content_nodes.
  apply Forall_concat, Forall_forall. intros l Hl.
  apply list_elem_of_In, in_map_iff in Hl as [part [<- _]].
  apply part_content_shape.
Qed.

(** The nodes the styler makes show all their text. *)
Lemma document_text_fragments (l : list node) :
  Forall plain_or_bold l -> document_text l = nodes_text l.
Proof.
  unfold document_text, nodes_text.
  induction 1 as [|n l [s [-> | ->]] _ IH]; [reflexivity| |];
    cbn [List.map concat]; rewrite IH; reflexivity.
Qed.

Lemma rewrite_nodes_document_text parents l :
  Forall (fun c => document_text (fst (rewrite_node_ parents c))
                   = visible_text c) l ->
  document_text (fst (rewrite_nodes_ parents l)) = document_text l.
Proof.
  intros Hl. rewrite rewrite_nodes_value. unfold document_text in *.
  induction Hl as [|c l Hc _ IH]; [reflexivity|].
  cbn [List.map concat]. rewrite map_app, concat_app, IH, Hc. reflexivity.
Qed.

Lemma rewrite_node_visible_text (n : node) : forall parents,
  cuts_only hyphenator ->
  text_and_comments_only n = true ->
  document_text (fst (rewrite_node_ parents n)) = visible_text n.
Proof.
  induction n as [cls text|name attrs children IH] using node_nested_ind;
    intros parents Hcuts Honly.
  - cbn [rewrite_node]. unfold mbind, W_bind. rewrite wbind_value.
    assert (forall n : node, document_text [n] = visible_text n) as Hone
      by (intros n; unfold document_text; simpl; apply app_nil_r).
    cbn [text_and_comments_only] in Honly.
    destruct (isinstance_Comment cls) eqn:Hcls.
    + unfold visit_text_node. rewrite Hcls. apply Hone.
    + cbn [orb] in Honly.
      destruct (visit_text_node_cases parents cls text) as [-> | ->];
        [apply Hone|].
      destruct (fst (process_text_node_ text true)) as [|content] eqn:Hout;
        [apply Hone|].
      cbn [mret W_ret wret fst visible_text]. rewrite Honly.
      rewrite (document_text_fragments content
                 (process_text_node_shape text true content Hout)).
      apply (process_text_node_text text true content Hcuts Hout).
  - rewrite rewrite_tag, wbind_value. cbn [wret fst].
    cbn [text_and_comments_only] in Honly.
    transitivity (document_text
                    (fst (rewrite_nodes_ (name :: parents) children))).
    { unfold document_text. cbn [List.map concat visible_text].
      apply app_nil_r. }
    rewrite rewrite_nodes_document_text; [reflexivity|].
    rewrite forallb_forall in Honly. rewrite Forall_forall in IH.
    apply Forall_forall. intros c Hc.
    apply (IH c Hc (name :: parents) Hcuts).
    apply Honly, list_elem_of_In, Hc.
Qed.

(** The document keeps the text it shows: when its strings are text or
    comments, and the syllables of the hyphenator make up the word, the
    visible text of the rewritten document, read in document order, is
    the visible text of the document (the payload of comments is not
    counted as text). *)
Theorem process_html_content_keeps_text (doc : soup) :
  cuts_only hyphenator ->
  forallb text_and_comments_only (contents doc) = true ->
  document_text (contents (fst (process_html_content unicode_isalnum
                                  hyphenator doc)))
  = document_text (contents doc).
Proof.
  intros Hcuts Honly. unfold process_html_content, mbind, W_bind.
  rewrite wbind_value. cbn [mret W_ret wret fst contents].
  apply rewrite_nodes_document_text, Forall_forall. intros c Hc.
  apply (rewrite_node_visible_text c _ Hcuts).
  rewrite forallb_forall in Honly. apply Honly, list_elem_of_In, Hc.
Qed.

Lemma hyphenator_calls_app (a b : list event) :
  hyphenator_calls (a ++ b) = hyphenator_calls a ++ hyphenator_calls b.
Proof. apply omap_app. Qed.

Lemma hyphenator_calls_concat {A} (f : A -> list event)
    (g : A -> list pystr) (l : list A) :
  (forall x, hyphenator_calls (f x) = g x) ->
  hyphenator_calls (concat (List.map f l)) = concat (List.map g l).
Proof.
  intros Hfg. induction l as [|x l IH]; [reflexivity|].
  cbn [List.map concat]. rewrite hyphenator_calls_app, Hfg, IH.
  reflexivity.
Qed.

Lemma part_content_calls part :
  hyphenator_calls (snd (part_content unicode_isalnum hyphenator part)) =
  if hyphenated unicode_isalnum part then [part] else [].
Proof.
  unfold part_content, hyphenated. destruct (_ && _); [|reflexivity].
  rewrite create_styled_events.
  destruct (hyphenator part); reflexivity.
Qed.

Lemma filter_as_concat {A} (p : A -> bool) (l : list A) :
  concat (List.map (fun x => if p x then [x] else []) l) = List.filter p l.
Proof.
  induction l as [|x l IH]; [reflexivity|]. cbn [List.map concat List.filter].
  rewrite IH. destruct (p x); reflexivity.
Qed.

Lemma process_text_node_hyphenator_calls text :
  hyphenator_calls (snd (process_text_node_ text true)) =
  List.filter (hyphenated unicode_isalnum) (text_parts unicode_isalnum text).
Proof.
  destruct (decide (text = [])) as [->|Hne]; [reflexivity|].
  rewrite (process_text_node_attached text Hne). cbn [snd].
  rewrite new_content_events.
  rewrite (hyphenator_calls_concat _
             (fun part => if hyphenated unicode_isalnum part
                          then [part] else []) _ part_content_calls).
  apply filter_as_concat.
Qed.

Lemma visit_text_node_calls parents cls text :
  hyphenator_calls
    (snd (visit_text_node unicode_isalnum hyphenator parents cls text)) =
  if eligible parents cls text
  then List.filter (hyphenated unicode_isalnum)
                   (text_parts unicode_isalnum text)
  else [].
Proof.
  unfold visit_text_node, eligible.
  destruct (isinstance_Comment cls || negb (truthy (strip text)));
    [reflexivity|].
  destruct (skip_node true parents); [reflexivity|].
  apply process_text_node_hyphenator_calls.
Qed.

Lemma concat_map_concat {A B} (f : A -> list B) (ls : list (list A)) :
  concat (List.map (fun l => concat (List.map f l)) ls) =
  concat (List.map f (concat ls)).
Proof.
  induction ls as [|l ls IH]; [reflexivity|].
  cbn [List.map concat]. rewrite map_app, concat_app, IH. reflexivity.
Qed.

(** What the hyphenator is asked over a whole document: the strings are
    taken in document order; each string that is neither a comment nor
    blank nor skipped for its parents contributes its alphanumeric parts
    of two or more characters, in their order in the text, once each; no
    other call is made. *)
Theorem process_html_content_calls (doc : soup) :
  hyphenator_calls
    (snd (process_html_content unicode_isalnum hyphenator doc)) =
  concat (List.map
            (fun '(parents, cls, text) =>
               if eligible parents cls text
               then List.filter (hyphenated unicode_isalnum)
                                (text_parts unicode_isalnum text)
               else [])
            (all_text_nodes doc)).
Proof.
  unfold process_html_content, mbind, W_bind. rewrite wbind_events.
  cbn [mret W_ret wret snd]. rewrite app_nil_r, rewrite_nodes_events.
  unfold all_text_nodes. rewrite <- concat_map_concat, List.map_map.
  apply hyphenator_calls_concat. intros c.
  rewrite rewrite_node_visits_strings.
  apply hyphenator_calls_concat. intros [[parents cls] text].
  apply visit_text_node_calls.
Qed.

End RewritingFacts.

(** ** Eligibility decides the rewriting *)

Section SkipSets.

Variable unicode_isalnum : N -> bool.
Variable hyphenator : pystr -> result (list pystr).


End SkipSets.


(** ** Subtrees that are skipped *)

Lemma skip_node_under (name : pystr) (rest : list pystr) (inner : list pystr) :
  forall is_parent,
  DOCUMENT_NAME ∉ inner ->
  name ∈ TAGS_TO_SKIP_COMPLETELY ->
  skip_node is_parent (inner ++ name :: rest) = true.
Proof.
  induction inner as [|a inner IH]; intros is_parent Hdoc Hname.
  - cbn [app skip_node].
    rewrite bool_decide_eq_false_2.
    + unfold py_in. rewrite bool_decide_eq_true_2 by exact Hname.
      reflexivity.
    + intros ->. revert Hname. apply (bool_decide_unpack _). vm_compute.
      exact I.
  - apply not_elem_of_cons in Hdoc as [Hne Hdoc].
    cbn [app skip_node]. rewrite bool_decide_eq_false_2 by congruence.
    destruct (py_in a TAGS_TO_SKIP_COMPLETELY); [reflexivity|].
    destruct (_ && _); [reflexivity|]. apply IH; assumption.
Qed.

Section SkippedSubtrees.

Variable unicode_isalnum : N -> bool.
Variable hyphenator : pystr -> result (list pystr).

Local Abbreviation rewrite_node_ := (rewrite_node unicode_isalnum hyphenator).
Local Abbreviation rewrite_nodes_ :=
  (rewrite_nodes unicode_isalnum hyphenator).

Lemma rewrite_nodes_untouched parents l :
  Forall (fun c => rewrite_node_ parents c = ([c], [])) l ->
  rewrite_nodes_ parents l = (l, []).
Proof.
  induction 1 as [|c l Hc _ IH]; [reflexivity|].
  cbn [rewrite_nodes]. rewrite Hc, IH. reflexivity.
Qed.

Lemma rewrite_under_skipped name parents (n : node) : forall inner,
  name ∈ TAGS_TO_SKIP_COMPLETELY ->
  DOCUMENT_NAME ∉ inner ->
  DOCUMENT_NAME ∉ tag_names n ->
  rewrite_node_ (inner ++ name :: parents) n = ([n], []).
Proof.
  induction n as [cls text|nm attrs children IH] using node_nested_ind;
    intros inner Hname Hinner Hnames.
  - cbn [rewrite_node]. unfold visit_text_node.
    rewrite (skip_node_under name parents inner true Hinner Hname).
    destruct (_ || _); reflexivity.
  - cbn [tag_names] in Hnames.
    apply not_elem_of_cons in Hnames as [Hnm Hnames].
    rewrite rewrite_tag.
    rewrite (rewrite_nodes_untouched (nm :: inner ++ name :: parents)
               children); [reflexivity|].
    rewrite Forall_forall in IH. apply Forall_forall. intros c Hc.
    apply (IH c Hc (nm :: inner) Hname).
    + apply not_elem_of_cons. split; [congruence|exact Hinner].
    + intros Hin. apply Hnames, list_elem_of_In, in_concat.
      exists (tag_names c). split; [|apply list_elem_of_In, Hin].
      apply in_map, list_elem_of_In, Hc.
Qed.

(** A [script] or [style] element is returned as it is, with everything
    under it at any depth, and nothing under it reaches the hyphenator
    (no element below being named like the document root). *)
Theorem skipped_subtree_untouched (name : pystr)
    (attrs : list (pystr * pystr)) (children : list node)
    (parents : list pystr) :
  name ∈ TAGS_TO_SKIP_COMPLETELY ->
  DOCUMENT_NAME ∉ tag_names (Tag name attrs children) ->
  rewrite_node_ parents (Tag name attrs children)
    = ([Tag name attrs children], []).
Proof.
  intros Hname Hnames. cbn [tag_names] in Hnames.
  apply not_elem_of_cons in Hnames as [_ Hnames].
  rewrite rewrite_tag.
  rewrite (rewrite_nodes_untouched (name :: parents) children);
    [reflexivity|].
  apply Forall_forall. intros c Hc.
  apply (rewrite_under_skipped name parents c [] Hname).
  - apply not_elem_of_nil.
  - intros Hin. apply Hnames, list_elem_of_In, in_concat.
    exists (tag_names c). split; [|apply list_elem_of_In, Hin].
    apply in_map, list_elem_of_In, Hc.
Qed.

End SkippedSubtrees.

(** ** Errors of the program in its environment *)

Lemma word_event_content unicode_isalnum (ev : event) :
  word_event unicode_isalnum ev -> content_event ev = true.
Proof. intros [word [_ [_ [-> |[e ->]]]]]; reflexivity. Qed.

Lemma content_event_no_write (evs : list event) :
  forallb content_event evs = true -> List.filter write_event evs = [].
Proof.
  induction evs as [|ev evs IH]; [reflexivity|]. cbn [forallb List.filter].
  intros [Hev Hevs]%andb_true_iff. rewrite (IH Hevs).
  destruct ev; try discriminate; reflexivity.
Qed.

Section EnvironmentFacts.

Variable unicode_isalnum : N -> bool.
Variable Hyphenator : Type.
Variable E : Type.
Variable dictools_is_installed : pystr -> E -> result bool.
Variable dictools_install : pystr -> E -> result unit * E.
Variable Hyphenator_init : pystr -> E -> result Hyphenator * E.
Variable Hyphenator_syllables : Hyphenator -> pystr -> result (list pystr).
Variable BeautifulSoup_init : pystr -> result soup.
Variable soup_str : soup -> pystr.
Variable Path_exists : Path -> E -> bool.
Variable Path_read_text : Path -> E -> result pystr.
Variable Path_mkdir : Path -> E -> result unit * E.
Variable Path_write_text : Path -> pystr -> E -> result unit * E.

Local Abbreviation world := (world Hyphenator E).
Local Abbreviation World_ := (World Hyphenator E).
Local Abbreviation cache_of := (_HYPHENATOR_CACHE Hyphenator E).
Local Abbreviation outside_of := (outside Hyphenator E).
Local Abbreviation trace_of := (trace Hyphenator E).
Local Abbreviation record_ := (record Hyphenator E).
Local Abbreviation get_hyphenator_ :=
  (get_hyphenator Hyphenator E dictools_is_installed dictools_install
     Hyphenator_init).
Local Abbreviation process_html_file_content_ :=
  (process_html_file_content unicode_isalnum Hyphenator E
     dictools_is_installed dictools_install Hyphenator_init
     Hyphenator_syllables BeautifulSoup_init soup_str).
Local Abbreviation process_html_file_ :=
  (process_html_file unicode_isalnum Hyphenator E
     dictools_is_installed dictools_install Hyphenator_init
     Hyphenator_syllables BeautifulSoup_init soup_str
     Path_read_text Path_mkdir Path_write_text).
Local Abbreviation emphasize_file_content_ :=
  (emphasize_file_content unicode_isalnum Hyphenator E
     dictools_is_installed dictools_install Hyphenator_init
     Hyphenator_syllables BeautifulSoup_init soup_str
     Path_exists Path_read_text Path_mkdir Path_write_text).

Ltac run_program :=
  unfold try_except, mbind, M_bind, bind, query, command, mret, M_ret, ret,
    raise, run_writer;
  cbn [record _HYPHENATOR_CACHE outside trace].

(** [get_hyphenator] never raises: whatever the dictionary tools and the
    constructor do, the caller gets a handle or [None]. *)
Theorem get_hyphenator_never_raises (lang : pystr) (w : world) :
  exists h, fst (get_hyphenator_ lang w) = Ok h.
Proof.
  unfold get_hyphenator. destruct (negb _); [|eexists; reflexivity].
  run_program.
  destruct (dictools_is_installed lang (outside_of w)) as [[|]|e]; cbn.
  - destruct (Hyphenator_init lang (outside_of w)) as [[h|e] e'];
      eexists; reflexivity.
  - destruct (dictools_install lang (outside_of w)) as [[[]|e] e']; cbn.
    + destruct (Hyphenator_init lang e') as [[h|e] e'']; eexists; reflexivity.
    + eexists; reflexivity.
  - eexists; reflexivity.
Qed.

(** A dictionary that is missing and cannot be installed: the result is
    [None], after the lookup and the failed installation; the constructor
    is not called. *)
Theorem get_hyphenator_install_fails (lang : pystr) (w : world) (e : exn)
    (m' : E) :
  lang ∉ dom (cache_of w) ->
  dictools_is_installed lang (outside_of w) = Ok false ->
  dictools_install lang (outside_of w) = (Raise e, m') ->
  get_hyphenator_ lang w =
    (Ok None,
     World_ (cache_of w) m' (trace_of w ++ [EvIsInstalled lang; EvInstall lang])).
Proof.
  intros Hcache Hinst Hinstall. unfold get_hyphenator.
  rewrite bool_decide_eq_false_2 by exact Hcache. cbn [negb]. run_program.
  rewrite Hinst. cbn. rewrite Hinstall. cbn. rewrite <- app_assoc.
  reflexivity.
Qed.

(** A missing dictionary is installed first: the constructor then runs on
    the machine the installation left, and its handle is returned, or
    [None] when it raises. *)
Theorem get_hyphenator_installs_first (lang : pystr) (w : world)
    (m1 m2 : E) (r : result Hyphenator) :
  lang ∉ dom (cache_of w) ->
  dictools_is_installed lang (outside_of w) = Ok false ->
  dictools_install lang (outside_of w) = (Ok tt, m1) ->
  Hyphenator_init lang m1 = (r, m2) ->
  get_hyphenator_ lang w =
    (Ok (match r with Ok h => Some h | Raise _ => None end),
     World_ (cache_of w) m2
       (trace_of w ++ [EvIsInstalled lang; EvInstall lang;
                       EvNewHyphenator lang])).
Proof.
  intros Hcache Hinst Hinstall Hinit. unfold get_hyphenator.
  rewrite bool_decide_eq_false_2 by exact Hcache. cbn [negb]. run_program.
  rewrite Hinst. cbn. rewrite Hinstall. cbn. rewrite Hinit.
  rewrite <- !app_assoc. destruct r; reflexivity.
Qed.

(** An input that cannot be read: [process_html_file] raises [ValueError]
    (one message for a missing file, one for any other failure) and has
    called nothing but [read_text]. *)
Theorem process_html_file_unreadable (input output : Path) (w : world)
    (e : exn) :
  Path_read_text input (outside_of w) = Raise e ->
  process_html_file_ input output w =
    (Raise (ValueError (match e with
                        | FileNotFoundError => InputNotFound input
                        | _ => InputUnreadable input
                        end)),
     record_ (EvReadText input) w).
Proof.
  intros Hread. unfold process_html_file. run_program. rewrite Hread.
  destruct e; reflexivity.
Qed.

(** A parser that raises: [process_html_file_content] raises [ValueError]
    right after the call of the parser; no word is hyphenated. *)
Theorem process_html_file_content_unparsable (html : pystr) (w w' : world)
    (h : Hyphenator) (e : exn) :
  get_hyphenator_ TARGET_LANG w = (Ok (Some h), w') ->
  BeautifulSoup_init html = Raise e ->
  process_html_file_content_ html w =
    (Raise (ValueError ParsingFailed), record_ (EvParse html) w').
Proof.
  intros Hget Hparse. unfold process_html_file_content. run_program.
  rewrite Hget, Hparse. reflexivity.
Qed.

(** An input path that does not exist: [emphasize_file_content] raises
    [ValueError] whatever the other arguments are, and has only asked
    whether the path exists. *)
Theorem emphasize_file_content_missing_input (args : Args) (w : world) :
  Path_exists (input_path args) (outside_of w) = false ->
  emphasize_file_content_ args w =
    (Raise (ValueError (InputDoesNotExist (input_path args))),
     record_ (EvExists (input_path args)) w).
Proof.
  intros Hexists. unfold emphasize_file_content. run_program.
  rewrite Hexists. reflexivity.
Qed.

Lemma dictionary_events_content (evs : list event) :
  forallb dictionary_event evs = true -> forallb content_event evs = true.
Proof.
  induction evs as [|ev evs IH]; [reflexivity|]. cbn [forallb].
  intros [Hev Hevs]%andb_true_iff. rewrite (IH Hevs), andb_true_r.
  destruct ev; try discriminate; reflexivity.
Qed.

Lemma process_html_content_content_events hyphenator doc :
  forallb content_event
    (snd (process_html_content unicode_isalnum hyphenator doc)) = true.
Proof.
  apply forallb_forall. intros ev Hev.
  apply (word_event_content unicode_isalnum).
  pose proof (Forall_forall (word_event unicode_isalnum)
    (snd (process_html_content unicode_isalnum hyphenator doc))) as [Hall _].
  apply Hall; [|apply list_elem_of_In, Hev]. clear.
  unfold process_html_content, mbind, W_bind. rewrite wbind_events.
  cbn [mret W_ret wret snd]. rewrite app_nil_r, rewrite_nodes_events.
  apply Forall_concat, Forall_forall. intros l Hl.
  apply list_elem_of_In, in_map_iff in Hl as [c [<- _]].
  apply rewrite_node_events.
Qed.

(** [process_html_file_content] calls the dictionary tools, the constructor,
    the parser and the hyphenator, and prints; nothing else. *)
Lemma process_html_file_content_trace (html : pystr) (w : world) :
  exists evs,
    trace_of (snd (process_html_file_content_ html w)) = trace_of w ++ evs
    /\ forallb content_event evs = true.
Proof.
  destruct (get_hyphenator_effects _ _ dictools_is_installed
              dictools_install Hyphenator_init TARGET_LANG w)
    as [_ [evs0 [Htrace Hdict]]].
  apply dictionary_events_content in Hdict.
  unfold process_html_file_content, mbind, M_bind, bind.
  destruct (get_hyphenator_ TARGET_LANG w) as [[[h|]|e] w1];
    cbn [snd] in Htrace.
  - run_program. destruct (BeautifulSoup_init html) as [doc|e].
    + cbn. rewrite Htrace. eexists. split.
      * rewrite <- !app_assoc. reflexivity.
      * rewrite forallb_app, Hdict. cbn [forallb content_event andb].
        apply process_html_content_content_events.
    + cbn. rewrite Htrace. eexists. split.
      * rewrite <- !app_assoc. reflexivity.
      * rewrite forallb_app, Hdict. reflexivity.
  - exists evs0. split; assumption.
  - exists evs0. split; assumption.
Qed.

(** [process_html_file], step by step. *)
Lemma process_html_file_steps (input output : Path) (w : world) :
  process_html_file_ input output w =
  match Path_read_text input (outside_of w) with
  | Raise e =>
      (Raise (ValueError (match e with
                          | FileNotFoundError => InputNotFound input
                          | _ => InputUnreadable input
                          end)),
       record_ (EvReadText input) w)
  | Ok html =>
      match process_html_file_content_ html (record_ (EvReadText input) w)
      with
      | (Raise e, w1) => (Raise e, w1)
      | (Ok processed, w1) =>
          match Path_mkdir (path_parent output) (outside_of w1) with
          | (Raise e, m2) =>
              (Raise e,
               World_ (cache_of w1) m2
                 (trace_of w1 ++ [EvMkdir (path_parent output)]))
          | (Ok _, m2) =>
              (fst (Path_write_text output processed m2),
               World_ (cache_of w1) (snd (Path_write_text output processed m2))
                 ((trace_of w1 ++ [EvMkdir (path_parent output)])
                    ++ [EvWriteText output processed]))
          end
      end
  end.
Proof.
  unfold process_html_file. run_program.
  destruct (Path_read_text input (outside_of w)) as [html|e];
    [|destruct e; reflexivity].
  destruct (process_html_file_content_ html (record_ (EvReadText input) w))
    as [[processed|e] w1]; [|reflexivity].
  destruct (Path_mkdir (path_parent output) (outside_of w1)) as [[[]|e] m2];
    [|reflexivity].
  cbn. destruct (Path_write_text output processed m2). reflexivity.
Qed.

(** The new events of [process_html_file], and what they change. *)
Lemma process_html_file_trace (input output : Path) (w : world) :
  exists evs,
    trace_of (snd (process_html_file_ input output w)) = trace_of w ++ evs
    /\ (List.filter write_event evs = []
        \/ List.filter write_event evs = [EvMkdir (path_parent output)]
        \/ exists processed,
             List.filter write_event evs =
               [EvMkdir (path_parent output); EvWriteText output processed])
    /\ (fst (process_html_file_ input output w) = Ok tt ->
        exists html processed,
          Path_read_text input (outside_of w) = Ok html
          /\ fst (process_html_file_content_ html
                    (record_ (EvReadText input) w)) = Ok processed
          /\ List.filter write_event evs =
               [EvMkdir (path_parent output); EvWriteText output processed]).
Proof.
  rewrite process_html_file_steps.
  destruct (Path_read_text input (outside_of w)) as [html|e] eqn:Hread.
  - destruct (process_html_file_content_trace html
                (record_ (EvReadText input) w)) as [evs1 [Htrace Hcontent]].
    apply content_event_no_write in Hcontent.
    destruct (process_html_file_content_ html (record_ (EvReadText input) w))
      as [[processed|e] w1] eqn:Hrun; cbn [snd] in Htrace;
      cbn [record trace] in Htrace.
    + destruct (Path_mkdir (path_parent output) (outside_of w1))
        as [[[]|e] m2]; cbn [snd fst trace]; rewrite Htrace.
      * exists ([EvReadText input] ++ evs1
                ++ [EvMkdir (path_parent output);
                    EvWriteText output processed]).
        assert (List.filter write_event
                  ([EvReadText input] ++ evs1
                   ++ [EvMkdir (path_parent output);
                       EvWriteText output processed])
                = [EvMkdir (path_parent output);
                   EvWriteText output processed]) as Hfilter.
        { cbn [app List.filter write_event]. rewrite List.filter_app, Hcontent.
          reflexivity. }
        split; [|split].
        -- rewrite <- !app_assoc. reflexivity.
        -- right. right. exists processed. exact Hfilter.
        -- intros _. exists html, processed.
           split; [reflexivity|split; [rewrite Hrun; reflexivity|exact Hfilter]].
      * exists ([EvReadText input] ++ evs1
                ++ [EvMkdir (path_parent output)]).
        split; [|split].
        -- rewrite <- !app_assoc. reflexivity.
        -- right. left. cbn [app List.filter write_event].
           rewrite List.filter_app, Hcontent. reflexivity.
        -- discriminate.
    + exists ([EvReadText input] ++ evs1). split; [|split].
      * cbn [snd]. rewrite Htrace, <- !app_assoc. reflexivity.
      * left. cbn [app List.filter write_event]. exact Hcontent.
      * discriminate.
  - exists [EvReadText input]. split; [|split].
    + reflexivity.
    + left. reflexivity.
    + discriminate.
Qed.

(** [process_html_file] changes files in one way only, and only after the
    processing has succeeded.  If the input cannot be read, or
    [process_html_file_content] raises, no directory is created and no
    file is written, and the exception of the processing is the one
    raised.  If the processing returns a text, the directory of the output
    path is created; if that raises, nothing is written; otherwise the
    output path is written once, with that text, and the run ends as
    [write_text] does. *)
Theorem process_html_file_writes (input output : Path) (w : world) :
  exists evs,
    trace_of (snd (process_html_file_ input output w)) = trace_of w ++ evs
    /\ match Path_read_text input (outside_of w) with
       | Raise _ => List.filter write_event evs = []
       | Ok html =>
           match process_html_file_content_ html
                   (record_ (EvReadText input) w) with
           | (Raise e, w1) =>
               List.filter write_event evs = []
               /\ process_html_file_ input output w = (Raise e, w1)
           | (Ok processed, w1) =>
               match Path_mkdir (path_parent output) (outside_of w1) with
               | (Raise e, _) =>
                   List.filter write_event evs = [EvMkdir (path_parent output)]
                   /\ fst (process_html_file_ input output w) = Raise e
               | (Ok _, m2) =>
                   List.filter write_event evs =
                     [EvMkdir (path_parent output);
                      EvWriteText output processed]
                   /\ fst (process_html_file_ input output w) =
                        fst (Path_write_text output processed m2)
                   /\ outside_of (snd (process_html_file_ input output w)) =
                        snd (Path_write_text output processed m2)
               end
           end
       end.
Proof.
  rewrite process_html_file_steps.
  destruct (Path_read_text input (outside_of w)) as [html|e].
  - destruct (process_html_file_content_trace html
                (record_ (EvReadText input) w)) as [evs1 [Htrace Hcontent]].
    apply content_event_no_write in Hcontent.
    destruct (process_html_file_content_ html (record_ (EvReadText input) w))
      as [[processed|e] w1]; cbn [snd] in Htrace;
      cbn [record trace] in Htrace.
    + destruct (Path_mkdir (path_parent output) (outside_of w1))
        as [[[]|e] m2]; cbn [snd fst trace outside]; rewrite Htrace.
      * exists ([EvReadText input] ++ evs1
                ++ [EvMkdir (path_parent output);
                    EvWriteText output processed]).
        split; [rewrite <- !app_assoc; reflexivity|].
        split; [|split; reflexivity].
        cbn [app List.filter write_event]. rewrite List.filter_app, Hcontent.
        reflexivity.
      * exists ([EvReadText input] ++ evs1
                ++ [EvMkdir (path_parent output)]).
        split; [rewrite <- !app_assoc; reflexivity|].
        split; [|reflexivity].
        cbn [app List.filter write_event]. rewrite List.filter_app, Hcontent.
        reflexivity.
    + exists ([EvReadText input] ++ evs1). cbn [snd]. rewrite Htrace.
      split; [rewrite <- !app_assoc; reflexivity|].
      split; [|reflexivity].
      cbn [app List.filter write_event]. exact Hcontent.
  - exists [EvReadText input]. split; reflexivity.
Qed.

(** *** The default output path *)

Lemma rfind_dot_app (a b : pystr) (i : nat) :
  rfind_dot b = Some i -> rfind_dot (a ++ b) = Some (length a + i)%nat.
Proof.
  intros Hb. induction a as [|c a IH]; [exact Hb|].
  cbn [app rfind_dot length]. rewrite IH. reflexivity.
Qed.

Lemma rfind_dot_lookup (name : pystr) : forall i,
  rfind_dot name = Some i -> name !! i = Some 46%N.
Proof.
  induction name as [|c name IH]; intros i; [discriminate|].
  cbn [rfind_dot]. destruct (rfind_dot name) as [j|].
  - intros [= <-]. apply (IH j eq_refl).
  - destruct (c =? 46)%N eqn:Hc; [|discriminate].
    intros [= <-]. apply N.eqb_eq in Hc as ->. reflexivity.
Qed.

Lemma path_name_join (p : Path) (segment : pystr) :
  path_name (path_join p segment) = segment.
Proof. unfold path_name, path_join. cbn [components]. apply last_last. Qed.

Lemma default_name_dot (stem : pystr) :
  rfind_dot (stem ++ DEFAULT_SUFFIX ++ u ".html")
    = Some (length stem + 10)%nat
  /\ length (stem ++ DEFAULT_SUFFIX ++ u ".html") = (length stem + 15)%nat.
Proof.
  split.
  - rewrite app_assoc.
    rewrite (rfind_dot_app (stem ++ DEFAULT_SUFFIX) (u ".html") 0 eq_refl).
    rewrite length_app. change (length DEFAULT_SUFFIX) with 10%nat.
    f_equal. lia.
  - rewrite !length_app.
    change (length DEFAULT_SUFFIX + length (u ".html"))%nat with 15%nat.
    reflexivity.
Qed.

(** The default output path differs from the input path. *)
Lemma default_output_differs (p : Path) :
  path_join (path_parent p) (path_stem p ++ DEFAULT_SUFFIX ++ u ".html") <> p.
Proof.
  intros Heq. apply (f_equal components) in Heq.
  unfold path_join, path_parent in Heq. cbn [components] in Heq.
  assert (path_stem p ++ DEFAULT_SUFFIX ++ u ".html" = path_name p) as Hname.
  { unfold path_name. destruct (components p) as [|c cs] eqn:Hcs.
    - discriminate.
    - pose proof (@app_removelast_last _ (c :: cs) [] ltac:(discriminate))
        as Hsplit.
      assert (removelast (c :: cs)
                ++ [path_stem p ++ DEFAULT_SUFFIX ++ u ".html"]
              = removelast (c :: cs) ++ [List.last (c :: cs) []]) as Hsame
        by (rewrite <- Hsplit; exact Heq).
      apply app_inv_head in Hsame. injection Hsame as Hsame. exact Hsame. }
  pose proof (f_equal length Hname) as Hlen.
  rewrite !length_app in Hlen.
  change (length DEFAULT_SUFFIX + length (u ".html"))%nat with 15%nat in Hlen.
  unfold path_stem in Hname, Hlen.
  destruct (rfind_dot (path_name p)) as [i|] eqn:Hdot; [|lia].
  destruct ((0 <? i)%nat && (i <? length (path_name p) - 1)%nat) eqn:Hcond;
    [|lia].
  apply andb_true_iff in Hcond as [_ Hi%Nat.ltb_lt].
  apply rfind_dot_lookup in Hdot. rewrite <- Hname in Hdot.
  rewrite lookup_app_r in Hdot by (rewrite length_take; lia).
  rewrite length_take in Hdot.
  replace (i - i `min` length (path_name p))%nat with 0%nat in Hdot by lia.
  discriminate.
Qed.

(** The default output path, for every input path: it ends in [.html] (a
    kind of file the program accepts as input), its stem is the stem of the
    input followed by [_syll_emph], and it lies in the directory of the
    input. *)
Theorem default_output_path (p : Path) :
  let out := path_join (path_parent p)
               (path_stem p ++ DEFAULT_SUFFIX ++ u ".html") in
  path_suffix out = u ".html"
  /\ path_stem out = path_stem p ++ DEFAULT_SUFFIX
  /\ path_parent out = path_parent p
  /\ py_in (path_suffix out) html_input = true.
Proof.
  intros out.
  destruct (default_name_dot (path_stem p)) as [Hdot Hlen].
  assert (path_suffix out = u ".html") as Hsuffix.
  { unfold path_suffix, out. rewrite path_name_join, Hdot, Hlen.
    replace ((0 <? length (path_stem p) + 10)%nat
             && (length (path_stem p) + 10 <? length (path_stem p) + 15 - 1)%nat)
      with true by (symmetry; apply andb_true_iff; split; apply Nat.ltb_lt; lia).
    rewrite app_assoc.
    replace (length (path_stem p) + 10)%nat
      with (length (path_stem p ++ DEFAULT_SUFFIX))
      by (rewrite length_app; reflexivity).
    apply drop_app_length. }
  split; [exact Hsuffix|]. split; [|split].
  - unfold path_stem at 1, out. rewrite path_name_join, Hdot, Hlen.
    replace ((0 <? length (path_stem p) + 10)%nat
             && (length (path_stem p) + 10 <? length (path_stem p) + 15 - 1)%nat)
      with true by (symmetry; apply andb_true_iff; split; apply Nat.ltb_lt; lia).
    rewrite app_assoc.
    replace (length (path_stem p) + 10)%nat
      with (length (path_stem p ++ DEFAULT_SUFFIX))
      by (rewrite length_app; reflexivity).
    apply take_app_length.
  - unfold out, path_parent, path_join. cbn [components absolute].
    rewrite removelast_last. reflexivity.
  - rewrite Hsuffix. reflexivity.
Qed.

(** Without in-place and without an output path, the input file is never
    written: no [write_text] on the input path is among the calls of the
    run, whatever the machine does. *)
Theorem default_run_spares_input (args : Args) (w : world)
    (data : pystr) :
  inplace args = false ->
  output_path args = None ->
  exists evs,
    trace_of (snd (emphasize_file_content_ args w)) = trace_of w ++ evs
    /\ EvWriteText (input_path args) data ∉ evs.
Proof.
  intros Hin Hout.
  set (out := path_join (path_parent (input_path args))
                (path_stem (input_path args) ++ DEFAULT_SUFFIX ++ u ".html")).
  assert (emphasize_file_content_ args w =
          if Path_exists (input_path args) (outside_of w)
          then if py_in (path_suffix (input_path args)) html_input
               then process_html_file_ (input_path args) out
                      (record_ (EvExists (input_path args)) w)
               else (Raise (ValueError (UnsupportedInput
                                          (path_suffix (input_path args))
                                          html_input)),
                     record_ (EvExists (input_path args)) w)
          else (Raise (ValueError (InputDoesNotExist (input_path args))),
                record_ (EvExists (input_path args)) w)) as ->.
  { unfold emphasize_file_content. run_program. rewrite Hin, Hout.
    destruct (Path_exists (input_path args) (outside_of w));
      [|reflexivity].
    cbn [negb].
    destruct (py_in (path_suffix (input_path args)) html_input);
      reflexivity. }
  assert (EvWriteText (input_path args) data
          ∉ [EvExists (input_path args)]) as Hfirst.
  { intros [= ]%list_elem_of_singleton. }
  destruct (Path_exists (input_path args) (outside_of w));
    [|exists [EvExists (input_path args)]; split; [reflexivity|exact Hfirst]].
  destruct (py_in (path_suffix (input_path args)) html_input);
    [|exists [EvExists (input_path args)]; split; [reflexivity|exact Hfirst]].
  destruct (process_html_file_trace (input_path args) out
              (record_ (EvExists (input_path args)) w))
    as [evs [Htrace [Hwrites _]]].
  exists (EvExists (input_path args) :: evs). split.
  - rewrite Htrace. cbn [record trace]. rewrite <- app_assoc. reflexivity.
  - intros Hin'. apply elem_of_cons in Hin' as [Hin'|Hin']; [discriminate|].
    assert (In (EvWriteText (input_path args) data)
               (List.filter write_event evs)) as Hf.
    { apply filter_In. split; [apply list_elem_of_In, Hin'|reflexivity]. }
    destruct Hwrites as [Hw|[Hw|[processed Hw]]]; rewrite Hw in Hf.
    + destruct Hf.
    + destruct Hf as [Hf|[]]. discriminate.
    + destruct Hf as [Hf|[Hf|[]]]; [discriminate|].
      injection Hf as Hpath _. exact (default_output_differs _ Hpath).
Qed.

(** A run that returns normally has created one directory and written one
    file: the input path when in-place, the given output path when there
    is one, the default path otherwise. *)
Theorem run_writes_target (args : Args) (w : world) :
  fst (emphasize_file_content_ args w) = Ok tt ->
  let target :=
    if inplace args then input_path args
    else match output_path args with
         | Some p => p
         | None => path_join (path_parent (input_path args))
                     (path_stem (input_path args) ++ DEFAULT_SUFFIX
                        ++ u ".html")
         end in
  exists evs processed,
    trace_of (snd (emphasize_file_content_ args w)) = trace_of w ++ evs
    /\ List.filter write_event evs =
         [EvMkdir (path_parent target); EvWriteText target processed].
Proof.
  intros Hok target.
  assert (emphasize_file_content_ args w =
          process_html_file_ (input_path args) target
            (record_ (EvExists (input_path args)) w)) as Hrun.
  { revert Hok. unfold emphasize_file_content, target. run_program.
    destruct (Path_exists (input_path args) (outside_of w)); cbn [negb];
      [|discriminate].
    destruct (inplace args), (output_path args) as [p|]; cbn;
      try discriminate;
      destruct (py_in (path_suffix (input_path args)) html_input);
      try discriminate; reflexivity. }
  rewrite Hrun in Hok |- *.
  destruct (process_html_file_trace (input_path args) target
              (record_ (EvExists (input_path args)) w))
    as [evs [Htrace [_ Hwritten]]].
  destruct (Hwritten Hok) as [html [processed [_ [_ Hfilter]]]].
  exists (EvExists (input_path args) :: evs), processed. split.
  - rewrite Htrace. cbn [record trace]. rewrite <- app_assoc. reflexivity.
  - cbn [List.filter write_event]. exact Hfilter.
Qed.

End EnvironmentFacts.

(** ** Blank text *)

Lemma lstrip_nil (s : pystr) :
  lstrip s = [] <-> forallb isspace_char s = true.
Proof.
  induction s as [|c s IH]; [split; reflexivity|].
  cbn [lstrip forallb]. destruct (isspace_char c); [exact IH|].
  split; discriminate.
Qed.

Lemma lstrip_spaces (s : pystr) :
  forallb isspace_char (lstrip s) = true -> lstrip s = [].
Proof.
  induction s as [|c s IH]; [reflexivity|]. cbn [lstrip].
  destruct (isspace_char c) eqn:Hc; [exact IH|].
  cbn [forallb]. rewrite Hc. discriminate.
Qed.

Lemma forallb_rev {A} (f : A -> bool) (l : list A) :
  forallb f (rev l) = forallb f l.
Proof.
  induction l as [|a l IH]; [reflexivity|]. cbn [rev forallb].
  rewrite forallb_app, IH. cbn [forallb]. rewrite andb_true_r.
  apply andb_comm.
Qed.

Lemma strip_nil (s : pystr) :
  strip s = [] <-> forallb isspace_char s = true.
Proof.
  unfold strip, rstrip. split.
  - intros Hs. apply lstrip_nil, lstrip_spaces.
    rewrite <- forallb_rev. apply lstrip_nil.
    apply (f_equal (@rev N)) in Hs. rewrite rev_involutive in Hs. exact Hs.
  - intros Hs. apply lstrip_nil in Hs. rewrite Hs. reflexivity.
Qed.

Section BlankText.

Variable unicode_isalnum : N -> bool.
Variable hyphenator : pystr -> result (list pystr).

(** A comment, and a string of whitespace only (also an empty one), stays
    in the tree as it is, under any parents, and causes no call; a string
    counts as blank exactly when all its code points are whitespace. *)
Theorem comment_or_whitespace_untouched (parents : list pystr)
    (cls : strclass) (text : pystr) :
  (strip text = [] <-> forallb isspace_char text = true)
  /\ (cls = Comment \/ forallb isspace_char text = true ->
      visit_text_node unicode_isalnum hyphenator parents cls text
        = (Untouched, [])
      /\ rewrite_node unicode_isalnum hyphenator parents (Str cls text)
        = ([Str cls text], [])).
Proof.
  split; [apply strip_nil|]. intros H.
  apply comment_or_blank_untouched.
  destruct H as [H|H]; [left; exact H|right; apply strip_nil, H].
Qed.

End BlankText.

(** ** The further properties at concrete inputs *)

Lemma demo_hyphenator_cuts_only : cuts_only Demo.syllables_of.
Proof.
  intros word syls. unfold Demo.syllables_of.
  case_bool_decide as Hword.
  - intros [= <-] _. rewrite Hword. reflexivity.
  - case_bool_decide; [discriminate|]. intros [= <-]. simpl. lia.
Defined.

Lemma process_text_node_outcome_witness :
  u "Hi." <> []
  /\ process_text_node Demo.unicode_isalnum Demo.syllables_of [] true
     = (Untouched, [])
  /\ fst (process_text_node Demo.unicode_isalnum Demo.syllables_of
            (u "Hi.") false) = Untouched.
Proof.
  assert (u "Hi." <> []) as Hne by (vm_compute; discriminate).
  pose proof (process_text_node_outcome Demo.unicode_isalnum
                Demo.syllables_of) as Hout.
  split; [exact Hne|]. split.
  - exact (proj1 (Hout []) eq_refl true).
  - rewrite (proj2 (proj2 (proj2 (Hout (u "Hi.")) Hne))). reflexivity.
Defined.

Lemma replacement_shape_witness :
  fst (process_text_node Demo.unicode_isalnum Demo.syllables_of
         (u "Silbentrennung") true)
    = Replaced [Str NavigableString (u "Sil"); bold_tag (u "ben");
                Str NavigableString (u "tren"); bold_tag (u "nung")]
  /\ Forall plain_or_bold
       [Str NavigableString (u "Sil"); bold_tag (u "ben");
        Str NavigableString (u "tren"); bold_tag (u "nung")].
Proof.
  assert (fst (process_text_node Demo.unicode_isalnum Demo.syllables_of
                 (u "Silbentrennung") true)
          = Replaced [Str NavigableString (u "Sil"); bold_tag (u "ben");
                      Str NavigableString (u "tren"); bold_tag (u "nung")])
    as Hout by (vm_compute; reflexivity).
  split; [exact Hout|].
  exact (replacement_shape Demo.unicode_isalnum Demo.syllables_of
           (u "Silbentrennung") true _ Hout).
Defined.

Lemma process_html_content_keeps_text_witness :
  cuts_only Demo.syllables_of
  /\ forallb text_and_comments_only
       [Tag (u "p") []
          [Str NavigableString (u "Die Silbentrennung.");
           Str Comment (u "Hinweis")]] = true
  /\ document_text
       (contents (fst (process_html_content Demo.unicode_isalnum
                         Demo.syllables_of
                         (BeautifulSoup
                            [Tag (u "p") []
                               [Str NavigableString
                                  (u "Die Silbentrennung.");
                                Str Comment (u "Hinweis")]]))))
     = u "Die Silbentrennung.".
Proof.
  split; [exact demo_hyphenator_cuts_only|].
  split; [reflexivity|].
  refine (eq_trans
            (process_html_content_keeps_text Demo.unicode_isalnum
               Demo.syllables_of
               (BeautifulSoup
                  [Tag (u "p") []
                     [Str NavigableString (u "Die Silbentrennung.");
                      Str Comment (u "Hinweis")]])
               demo_hyphenator_cuts_only eq_refl) _).
  vm_compute. reflexivity.
Defined.

(** Without the condition on the strings the visible text can grow: the
    payload of a doctype is no comment for line 186 and comes back as a
    plain string. *)
Example doctype_becomes_text :
  let doc := BeautifulSoup [Str Doctype (u "html");
                            Tag (u "p") [] [Str NavigableString (u "Hi")]] in
  document_text (contents doc) = u "Hi"
  /\ document_text
       (contents (fst (process_html_content Demo.unicode_isalnum
                         Demo.syllables_of doc))) = u "htmlHi".
Proof. vm_compute. split; reflexivity. Qed.

Example calls_in_document_order :
  hyphenator_calls
    (snd (process_html_content Demo.unicode_isalnum Demo.syllables_of
            (BeautifulSoup
               [Tag (u "p") [] [Str NavigableString (u "Die Silbe a 12.")];
                Tag (u "pre") [] [Str NavigableString (u "Code")];
                Str NavigableString (u "Ende_ gut")])))
  = [u "Die"; u "Silbe"; u "12"; u "gut"].
Proof. vm_compute. reflexivity. Qed.

Lemma skipped_subtree_untouched_witness :
  (u "script" ∈ TAGS_TO_SKIP_COMPLETELY)
  /\ fst (rewrite_node Demo.unicode_isalnum Demo.syllables_of
            [u "body"; DOCUMENT_NAME]
            (Tag (u "script") []
               [Tag (u "i") [] [Str NavigableString (u "Silbentrennung")]]))
     = [Tag (u "script") []
          [Tag (u "i") [] [Str NavigableString (u "Silbentrennung")]]].
Proof.
  assert (u "script" ∈ TAGS_TO_SKIP_COMPLETELY) as Hname
    by (apply (bool_decide_unpack _); vm_compute; exact I).
  assert (DOCUMENT_NAME ∉
            tag_names (Tag (u "script") []
                         [Tag (u "i") []
                            [Str NavigableString (u "Silbentrennung")]]))
    as Hnames by (apply (bool_decide_unpack _); vm_compute; exact I).
  split; [exact Hname|].
  rewrite (skipped_subtree_untouched Demo.unicode_isalnum Demo.syllables_of
             _ _ _ [u "body"; DOCUMENT_NAME] Hname Hnames).
  reflexivity.
Defined.

Lemma comment_or_whitespace_untouched_witness :
  forallb isspace_char (u "   ") = true
  /\ rewrite_node Demo.unicode_isalnum Demo.syllables_of
       [u "p"; DOCUMENT_NAME] (Str NavigableString (u "   "))
     = ([Str NavigableString (u "   ")], []).
Proof.
  assert (forallb isspace_char (u "   ") = true) as Hblank
    by (vm_compute; reflexivity).
  split; [exact Hblank|].
  exact (proj2 (proj2 (comment_or_whitespace_untouched Demo.unicode_isalnum
                         Demo.syllables_of [u "p"; DOCUMENT_NAME]
                         NavigableString (u "   "))
                      (or_intror Hblank))).
Defined.

Lemma get_hyphenator_install_fails_witness :
  Demo.is_installed TARGET_LANG (outside _ _ Demo.offline) = Ok false
  /\ fst (Demo.get_hyphenator TARGET_LANG Demo.offline) = Ok None
  /\ trace _ _ (snd (Demo.get_hyphenator TARGET_LANG Demo.offline))
     = [EvIsInstalled TARGET_LANG; EvInstall TARGET_LANG].
Proof.
  assert (TARGET_LANG ∉ dom (_HYPHENATOR_CACHE _ _ Demo.offline)) as Hcache
    by (apply (bool_decide_unpack _); vm_compute; exact I).
  assert (Demo.is_installed TARGET_LANG (outside _ _ Demo.offline)
          = Ok false) as Hinst by (vm_compute; reflexivity).
  assert (Demo.install TARGET_LANG (outside _ _ Demo.offline)
          = (Raise (LibraryError 1), outside _ _ Demo.offline)) as Hinstall
    by (vm_compute; reflexivity).
  split; [exact Hinst|]. unfold Demo.get_hyphenator.
  rewrite (get_hyphenator_install_fails nat Demo.machine Demo.is_installed
             Demo.install Demo.init TARGET_LANG Demo.offline _ _
             Hcache Hinst Hinstall).
  split; reflexivity.
Defined.

Lemma get_hyphenator_installs_first_witness :
  Demo.is_installed TARGET_LANG (outside _ _ Scenes.online) = Ok false
  /\ fst (Demo.get_hyphenator TARGET_LANG Scenes.online) = Ok (Some 0%nat)
  /\ trace _ _ (snd (Demo.get_hyphenator TARGET_LANG Scenes.online))
     = [EvIsInstalled TARGET_LANG; EvInstall TARGET_LANG;
        EvNewHyphenator TARGET_LANG].
Proof.
  assert (TARGET_LANG ∉ dom (_HYPHENATOR_CACHE _ _ Scenes.online)) as Hcache
    by (apply (bool_decide_unpack _); vm_compute; exact I).
  assert (Demo.is_installed TARGET_LANG (outside _ _ Scenes.online)
          = Ok false) as Hinst by (vm_compute; reflexivity).
  assert (Demo.install TARGET_LANG (outside _ _ Scenes.online)
          = (Ok tt, snd (Demo.install TARGET_LANG
                           (outside _ _ Scenes.online)))) as Hinstall
    by (vm_compute; reflexivity).
  assert (Demo.init TARGET_LANG
            (snd (Demo.install TARGET_LANG (outside _ _ Scenes.online)))
          = (Ok 0%nat,
             snd (Demo.init TARGET_LANG
                    (snd (Demo.install TARGET_LANG
                            (outside _ _ Scenes.online))))))
    as Hinit by (vm_compute; reflexivity).
  split; [exact Hinst|]. unfold Demo.get_hyphenator.
  rewrite (get_hyphenator_installs_first nat Demo.machine Demo.is_installed
             Demo.install Demo.init TARGET_LANG Scenes.online _ _ _
             Hcache Hinst Hinstall Hinit).
  split; reflexivity.
Defined.

Lemma process_html_file_unreadable_witness :
  Demo.read_text Scenes.missing (outside _ _ Demo.start)
    = Raise FileNotFoundError
  /\ process_html_file Demo.unicode_isalnum nat Demo.machine
       Demo.is_installed Demo.install Demo.init Demo.syllables
       Demo.parse Demo.to_str Demo.read_text Demo.mkdir Demo.write_text
       Scenes.missing Demo.chapter Demo.start
     = (Raise (ValueError (InputNotFound Scenes.missing)),
        record nat Demo.machine (EvReadText Scenes.missing) Demo.start).
Proof.
  assert (Demo.read_text Scenes.missing (outside _ _ Demo.start)
          = Raise FileNotFoundError) as Hread by (vm_compute; reflexivity).
  split; [exact Hread|].
  exact (process_html_file_unreadable Demo.unicode_isalnum nat Demo.machine
           Demo.is_installed Demo.install Demo.init Demo.syllables
           Demo.parse Demo.to_str Demo.read_text Demo.mkdir Demo.write_text
           Scenes.missing Demo.chapter Demo.start _ Hread).
Defined.

Lemma process_html_file_content_unparsable_witness :
  Scenes.broken_parser (u "<p>") = Raise (LibraryError 4)
  /\ fst (process_html_file_content Demo.unicode_isalnum nat Demo.machine
            Demo.is_installed Demo.install Demo.init Demo.syllables
            Scenes.broken_parser Demo.to_str (u "<p>") Demo.start)
     = Raise (ValueError ParsingFailed).
Proof.
  assert (Demo.get_hyphenator TARGET_LANG Demo.start
          = (Ok (Some 0%nat), snd (Demo.get_hyphenator TARGET_LANG Demo.start)))
    as Hget by (vm_compute; reflexivity).
  split; [reflexivity|].
  rewrite (process_html_file_content_unparsable Demo.unicode_isalnum nat
             Demo.machine Demo.is_installed Demo.install Demo.init
             Demo.syllables Scenes.broken_parser Demo.to_str (u "<p>")
             Demo.start _ _ (LibraryError 4) Hget eq_refl).
  reflexivity.
Defined.

Lemma emphasize_file_content_missing_input_witness :
  Demo.file_exists Scenes.missing (outside _ _ Demo.start) = false
  /\ Demo.emphasize_file_content (mkArgs Scenes.missing true None) Demo.start
     = (Raise (ValueError (InputDoesNotExist Scenes.missing)),
        record nat Demo.machine (EvExists Scenes.missing) Demo.start).
Proof.
  assert (Demo.file_exists Scenes.missing (outside _ _ Demo.start) = false)
    as Hexists by (vm_compute; reflexivity).
  split; [exact Hexists|].
  exact (emphasize_file_content_missing_input Demo.unicode_isalnum nat
           Demo.machine Demo.is_installed Demo.install Demo.init
           Demo.syllables Demo.parse Demo.to_str Demo.file_exists
           Demo.read_text Demo.mkdir Demo.write_text
           (mkArgs Scenes.missing true None) Demo.start Hexists).
Defined.

Lemma default_run_spares_input_witness :
  exists evs,
    trace _ _ (snd (Demo.emphasize_file_content
                      (mkArgs Demo.chapter false None) Demo.start))
      = trace _ _ Demo.start ++ evs
    /\ EvWriteText Demo.chapter (u "<p>Die Sil<b>ben</b>tren<b>nung</b>.</p>")
       ∉ evs.
Proof.
  exact (default_run_spares_input Demo.unicode_isalnum nat Demo.machine
           Demo.is_installed Demo.install Demo.init Demo.syllables
           Demo.parse Demo.to_str Demo.file_exists Demo.read_text
           Demo.mkdir Demo.write_text (mkArgs Demo.chapter false None)
           Demo.start _ eq_refl eq_refl).
Defined.

Lemma run_writes_target_witness :
  fst (Demo.emphasize_file_content (mkArgs Demo.chapter true None)
         Demo.start) = Ok tt
  /\ exists evs processed,
       trace _ _ (snd (Demo.emphasize_file_content
                         (mkArgs Demo.chapter true None) Demo.start))
         = trace _ _ Demo.start ++ evs
       /\ List.filter write_event evs =
            [EvMkdir (path_parent Demo.chapter);
             EvWriteText Demo.chapter processed].
Proof.
  assert (fst (Demo.emphasize_file_content (mkArgs Demo.chapter true None)
                 Demo.start) = Ok tt) as Hok by (vm_compute; reflexivity).
  split; [exact Hok|].
  exact (run_writes_target Demo.unicode_isalnum nat Demo.machine
           Demo.is_installed Demo.install Demo.init Demo.syllables
           Demo.parse Demo.to_str Demo.file_exists Demo.read_text
           Demo.mkdir Demo.write_text (mkArgs Demo.chapter true None)
           Demo.start Hok).
Defined.

Example process_html_file_writes_failed_processing :
  exists evs,
    trace _ _ (snd (process_html_file Demo.unicode_isalnum nat Demo.machine
                      Demo.is_installed Demo.install Demo.init Demo.syllables
                      Demo.parse Demo.to_str Demo.read_text Demo.mkdir
                      Demo.write_text Demo.chapter Demo.notes_txt
                      Demo.offline))
      = trace _ _ Demo.offline ++ evs
    /\ List.filter write_event evs = [].
Proof.
  destruct (process_html_file_writes Demo.unicode_isalnum nat Demo.machine
              Demo.is_installed Demo.install Demo.init Demo.syllables
              Demo.parse Demo.to_str Demo.read_text Demo.mkdir
              Demo.write_text Demo.chapter Demo.notes_txt Demo.offline)
    as [evs [Htrace Hcases]].
  exists evs. split; [exact Htrace|].
  vm_compute in Hcases. exact (proj1 Hcases).
Qed.

Example process_html_file_writes_output :
  exists evs,
    trace _ _ (snd (process_html_file Demo.unicode_isalnum nat Demo.machine
                      Demo.is_installed Demo.install Demo.init Demo.syllables
                      Demo.parse Demo.to_str Demo.read_text Demo.mkdir
                      Demo.write_text Demo.chapter Demo.notes_txt Demo.start))
      = trace _ _ Demo.start ++ evs
    /\ List.filter write_event evs =
         [EvMkdir (path_parent Demo.notes_txt);
          EvWriteText Demo.notes_txt
            (u "<p>Die Sil<b>ben</b>tren<b>nung</b>.</p>")].
Proof.
  destruct (process_html_file_writes Demo.unicode_isalnum nat Demo.machine
              Demo.is_installed Demo.install Demo.init Demo.syllables
              Demo.parse Demo.to_str Demo.read_text Demo.mkdir
              Demo.write_text Demo.chapter Demo.notes_txt Demo.start)
    as [evs [Htrace Hcases]].
  exists evs. split; [exact Htrace|].
  vm_compute in Hcases. exact (proj1 Hcases).
Qed.
